(** * Parallel blob pipeline of ai4eutils

    A shallow embedding of the producer/consumer pipeline shared by
    [parallel_change_blob_access_tier.py] and [parallel_delete_blobs.py]:
    the producer that batches the lines of the input file into blocks, the
    progress counter, the per-item operations [set_access_tier] and
    [delete_blob] with the remote container client they call, the consumer
    loop bodies, the orchestration functions and the bounded queue that
    connects producer and consumers. *)

From Stdlib Require Import Bool ZArith Lia List String Ascii Permutation.
From Stdlib Require Import Relations.
Import ListNotations.
Open Scope string_scope.
Open Scope Z_scope.
Open Scope list_scope.

(** ** Strings *)

(** Python's [str.isspace] restricted to the ASCII range: tab, newline,
    vertical tab, form feed, carriage return, the four separators
    0x1c..0x1f and space. *)
Definition is_space (c : ascii) : bool :=
  let n := nat_of_ascii c in
  ((9 <=? n) && (n <=? 13))%nat || ((28 <=? n) && (n <=? 32))%nat.

Fixpoint lstrip (s : string) : string :=
  match s with
  | EmptyString => EmptyString
  | String c r => if is_space c then lstrip r else s
  end.

Fixpoint rstrip (s : string) : string :=
  match s with
  | EmptyString => EmptyString
  | String c r =>
      let r' := rstrip r in
      match r' with
      | EmptyString => if is_space c then EmptyString else String c EmptyString
      | _ => String c r'
      end
  end.

(** [line.strip()] *)
Definition strip (s : string) : string := rstrip (lstrip s).

(** [needle in haystack] for Python strings. *)
Definition str_contains (needle haystack : string) : bool :=
  match String.index 0 needle haystack with
  | Some _ => true
  | None => false
  end.

Fixpoint digits_of_nat (fuel n : nat) (acc : string) : string :=
  match fuel with
  | O => acc
  | S f =>
      let acc' := String (ascii_of_nat (48 + n mod 10)) acc in
      if (n <? 10)%nat then acc' else digits_of_nat f (n / 10) acc'
  end.

(** [str(n)] for a non-negative integer. *)
Definition string_of_nat (n : nat) : string := digits_of_nat (S n) n EmptyString.

Definition string_of_Z (z : Z) : string :=
  if z <? 0 then String "-" (string_of_nat (Z.to_nat (- z)))
  else string_of_nat (Z.to_nat z).

(** ** Exceptions *)

Inductive ExnKind :=
| ResourceNotFoundError
| HttpResponseError
| FileNotFoundError
| AssertionError
| TypeError
| KeyError.

(** A raised Python exception: its class and [str(e)]. *)
Record Exn := mkExn { exn_kind : ExnKind; exn_msg : string }.

Definition is_resource_not_found (e : Exn) : bool :=
  match exn_kind e with ResourceNotFoundError => true | _ => false end.

(** ** Module globals shared by both scripts

    Both scripts declare these globals with the same names and the same
    default values; [max_queue_size] is computed from [n_threads] when the
    module is imported ([max_queue_size = n_threads*4]). *)
Record PipelineGlobals := mkPipelineGlobals {
  debug_max_files : Z;
  verbose : bool;
  use_threads : bool;
  n_threads : Z;
  n_print : Z;
  blobs_to_skip : Z;
  max_queue_size : Z;
  producer_block_size : Z
}.

(** The module-level assignments, with [n_threads] and
    [producer_block_size] as the only free values. *)
Definition module_globals (threads block : Z) : PipelineGlobals := {|
  debug_max_files := -1;
  verbose := false;
  use_threads := false;
  n_threads := threads;
  n_print := 5000;
  blobs_to_skip := 0;
  max_queue_size := threads * 4;
  producer_block_size := block
|}.

Definition default_pipeline_globals : PipelineGlobals := module_globals 100 500.

(** ** The input file

    A file system maps a path to the lines [enumerate(f_in)] yields, or to
    nothing when the file does not exist. *)
Definition FileSystem := string -> option (list string).

(** ** Producer ([producer_func], identical in both scripts) *)

Inductive PEvent :=
| PLog (msg : string)
| PIncrement (n : nat)     (** [cnt.increment(n=len(current_block))] *)
| PPut (block : list string).  (** [q.put(current_block)] *)

(** The [for i_line, line in enumerate(f_in)] loop; returns the events in
    order and the [current_block] left when the loop ends or breaks. *)
Fixpoint producer_loop (g : PipelineGlobals) (i_line : Z) (lines : list string)
    (current_block : list string) : list PEvent * list string :=
  match lines with
  | [] => ([], current_block)
  | raw :: rest =>
      if (0 <? blobs_to_skip g) && (i_line <? blobs_to_skip g) then
        producer_loop g (i_line + 1) rest current_block
      else
        let line := strip raw in
        if (String.length line =? 0)%nat then
          producer_loop g (i_line + 1) rest current_block
        else
          let n_lines :=
            if 0 <? blobs_to_skip g then i_line - blobs_to_skip g else i_line in
          if (0 <? debug_max_files g) && (debug_max_files g <=? n_lines) then
            ([PLog "Hit debug path limit"], current_block)
          else
            let cb := current_block ++ [line] in
            if Z.of_nat (List.length cb) =? producer_block_size g then
              let '(evs, fin) := producer_loop g (i_line + 1) rest [] in
              ((if verbose g
                then [PLog ("Queuing " ++ string_of_nat (List.length cb) ++ " paths")%string]
                else [])
                 ++ PIncrement (List.length cb) :: PPut cb :: evs, fin)
            else producer_loop g (i_line + 1) rest cb
  end.

(** [producer_func(q, input_file)]: the events, and the exception that ends
    the producer thread, if any. *)
Definition producer_func (g : PipelineGlobals) (fs : FileSystem) (input_file : string)
    : list PEvent * option Exn :=
  match fs input_file with
  | None =>
      ([], Some (mkExn FileNotFoundError
                   ("[Errno 2] No such file or directory: '" ++ input_file ++ "'")%string))
  | Some lines =>
      let '(evs, fin) := producer_loop g 0 lines [] in
      (evs ++ [PLog ("Queuing " ++ string_of_nat (List.length fin) ++ " paths at termination")%string;
               PPut fin;
               PLog "Finished file processing"], None)
  end.

(** The blocks put on the queue, in order. *)
Fixpoint puts (evs : list PEvent) : list (list string) :=
  match evs with
  | [] => []
  | PPut b :: r => b :: puts r
  | _ :: r => puts r
  end.

(** The stripped non-blank lines of a file. *)
Definition nonblank_items (lines : list string) : list string :=
  filter (fun l => negb (String.length l =? 0)%nat) (map strip lines).

Definition produced_blocks (g : PipelineGlobals) (fs : FileSystem) (f : string)
    : list (list string) :=
  puts (fst (producer_func g fs f)).

Definition fs_of (path : string) (lines : list string) : FileSystem :=
  fun p => if String.eqb p path then Some lines else None.

(** ** Progress counter ([Counter], identical in both scripts)

    [multiprocessing.Value('i', ...)] is a C [int]: ctypes stores an
    out-of-range value silently truncated to 32 bits. *)
Record Counter := mkCounter { val : Z; total : Z; last_print : Z }.

Definition wrap_c_int (z : Z) : Z := (z + 2 ^ 31) mod 2 ^ 32 - 2 ^ 31.

(** [Counter(total)] *)
Definition new_counter (t : Z) : Counter := mkCounter 0 t 0.

(** [Counter.increment(n)]: the new counter and whether a progress line is
    printed. *)
Definition counter_increment (n_print : Z) (n : Z) (c : Counter) : Counter * bool :=
  let v := wrap_c_int (val c + n) in
  if n_print <=? v - last_print c then (mkCounter v (total c) v, true)
  else (mkCounter v (total c) (last_print c), false).

(** The values of [cnt] after each increment the producer performs. *)
Fixpoint counter_values (n_print : Z) (c : Counter) (evs : list PEvent) : list Z :=
  match evs with
  | [] => []
  | PIncrement n :: r =>
      let c' := fst (counter_increment n_print (Z.of_nat n) c) in
      val c' :: counter_values n_print c' r
  | _ :: r => counter_values n_print c r
  end.

Fixpoint counter_after (n_print : Z) (c : Counter) (evs : list PEvent) : Counter :=
  match evs with
  | [] => c
  | PIncrement n :: r =>
      counter_after n_print (fst (counter_increment n_print (Z.of_nat n) c)) r
  | _ :: r => counter_after n_print c r
  end.

(** The counter after the producer thread of a run ([pinit(Counter(-1))]
    first), and the number of items it put on the queue. *)
Definition final_counter_value (g : PipelineGlobals) (fs : FileSystem) (f : string) : Z :=
  val (counter_after (n_print g) (new_counter (-1)) (fst (producer_func g fs f))).

Definition items_queued (g : PipelineGlobals) (fs : FileSystem) (f : string) : nat :=
  List.length (List.concat (produced_blocks g fs f)).

(** ** Bounded queue and consumer pool

    [Queue(max_queue_size)] and [multiprocessing.JoinableQueue(max_queue_size)]
    both block [put] while [max_queue_size] blocks are held; a size [<= 0]
    means unbounded. The [n_threads] consumers are identical loops; a busy
    consumer holds the items of its block it has not handed to the per-item
    operation yet. [unfinished_tasks] is the counter [q.join()] waits on.

    An exception that leaves the per-item operation ends the block: the
    access-tier consumer's [try] around the block catches it, prints it,
    calls [task_done] and takes the next block; the delete consumer has no
    [try], so its thread ends holding the block, never marked done. Either
    way the rest of the block is never handed to the operation. *)
Inductive ItemFailure :=
| NeverRaises      (** the per-item operation cannot raise *)
| AbandonsBlock    (** it can raise; the consumer drops the rest of the block *)
| KillsConsumer.   (** it can raise; the consumer's thread ends *)

Definition can_put (maxsize : Z) (qsize : nat) : bool :=
  (maxsize <=? 0) || (Z.of_nat qsize <? maxsize).

Record RunState := mkRunState {
  pending : list (list string);
  queue : list (list string);
  idle_workers : nat;
  busy_workers : list (list string);
  unfinished_tasks : nat;
  dispatched : list string;          (** items handed to the per-item operation *)
  abandoned : list string;           (** items of blocks ended by an exception *)
  dead_workers : nat                 (** consumers whose thread an exception ended *)
}.

Inductive run_step (g : PipelineGlobals) (k : ItemFailure) : RunState -> RunState -> Prop :=
| step_put b rest q i bs u d a w :
    can_put (max_queue_size g) (List.length q) = true ->
    run_step g k (mkRunState (b :: rest) q i bs u d a w)
                 (mkRunState rest (q ++ [b]) i bs (S u) d a w)
| step_get b q p i bs u d a w :
    run_step g k (mkRunState p (b :: q) (S i) bs u d a w)
                 (mkRunState p q i (b :: bs) u d a w)
| step_item bs1 x rest bs2 p q i u d a w :
    run_step g k (mkRunState p q i (bs1 ++ (x :: rest) :: bs2) u d a w)
                 (mkRunState p q i (bs1 ++ rest :: bs2) u (d ++ [x]) a w)
| step_task_done bs1 bs2 p q i u d a w :
    run_step g k (mkRunState p q i (bs1 ++ [] :: bs2) u d a w)
                 (mkRunState p q (S i) (bs1 ++ bs2) (u - 1) d a w)
| step_item_raises_caught bs1 x rest bs2 p q i u d a w :
    k = AbandonsBlock ->
    run_step g k (mkRunState p q i (bs1 ++ (x :: rest) :: bs2) u d a w)
                 (mkRunState p q (S i) (bs1 ++ bs2) (u - 1) (d ++ [x]) (a ++ rest) w)
| step_item_raises_dies bs1 x rest bs2 p q i u d a w :
    k = KillsConsumer ->
    run_step g k (mkRunState p q i (bs1 ++ (x :: rest) :: bs2) u d a w)
                 (mkRunState p q i (bs1 ++ bs2) u (d ++ [x]) (a ++ rest) (S w)).

Definition run_init (g : PipelineGlobals) (blocks : list (list string)) : RunState :=
  mkRunState blocks [] (Z.to_nat (n_threads g)) [] 0 [] [] 0.

Definition run_reachable (g : PipelineGlobals) (k : ItemFailure)
    (blocks : list (list string)) (st : RunState) : Prop :=
  clos_refl_trans_1n _ (run_step g k) (run_init g blocks) st.

(** [producer.join()] and [q.join()] have both returned. *)
Definition run_finished (st : RunState) : Prop :=
  pending st = [] /\ unfinished_tasks st = 0%nat.

(** ** The remote container client

    [container_client] is an interface to the storage service; its state is
    the remote storage. Reads return properties and leave it unchanged;
    mutating calls return the new state or raise. *)
Record BlobProperties := mkBlobProperties {
  blob_tier : option string;        (** [properties['blob_tier']] *)
  blob_tier_inferred : option bool; (** [properties.blob_tier_inferred]; there is no
                                        key ['tier_inferred'] *)
  archive_status : option string    (** [properties['archive_status']] *)
}.

Class ContainerClient (Store : Type) := {
  get_blob_properties : Store -> string -> Exn + BlobProperties;
  set_standard_blob_tier_blobs : Store -> string -> string -> Exn + Store;
  delete_blob_call : Store -> string -> Exn + Store
}.

(** What a per-item operation does, in order: printed lines, remote calls
    and sleeps; [EvTaskDone] is the consumer's [q.task_done()]. *)
Inductive Event :=
| EvLog (msg : string)
| EvGetProps (path : string)
| EvSetTier (tier path : string)
| EvDelete (path : string)
| EvSleep
| EvTaskDone.

Definition is_mutating (e : Event) : bool :=
  match e with EvSetTier _ _ | EvDelete _ => true | _ => false end.

Definition is_remote_read (e : Event) : bool :=
  match e with EvGetProps _ => true | _ => false end.

(** ** A state and exception monad for the per-item code *)
Section Monad.

Context {Store : Type} `{ContainerClient Store}.

Definition M (A : Type) : Type :=
  Store -> list Event -> Store * list Event * (Exn + A).

Definition ret {A} (a : A) : M A := fun s l => (s, l, inr a).

Definition bind {A B} (m : M A) (k : A -> M B) : M B :=
  fun s l =>
    match m s l with
    | (s', l', inl e) => (s', l', inl e)
    | (s', l', inr a) => k a s' l'
    end.

Definition raise {A} (e : Exn) : M A := fun s l => (s, l, inl e).

(** [try: m  except Exception as e: h(e)] *)
Definition try_except {A} (m : M A) (h : Exn -> M A) : M A :=
  fun s l =>
    match m s l with
    | (s', l', inl e) => h e s' l'
    | r => r
    end.

Definition emit (e : Event) : M unit := fun s l => (s, l ++ [e], inr tt).

Definition when (b : bool) (m : M unit) : M unit := if b then m else ret tt.

Definition get_props (p : string) : M BlobProperties :=
  fun s l => (s, l ++ [EvGetProps p], get_blob_properties s p).

Definition set_tier (t p : string) : M unit :=
  fun s l =>
    match set_standard_blob_tier_blobs s t p with
    | inl e => (s, l ++ [EvSetTier t p], inl e)
    | inr s' => (s', l ++ [EvSetTier t p], inr tt)
    end.

Definition delete_call (p : string) : M unit :=
  fun s l =>
    match delete_blob_call s p with
    | inl e => (s, l ++ [EvDelete p], inl e)
    | inr s' => (s', l ++ [EvDelete p], inr tt)
    end.

Fixpoint for_each (f : string -> M unit) (xs : list string) : M unit :=
  match xs with
  | [] => ret tt
  | x :: r => bind (f x) (fun _ => for_each f r)
  end.

End Monad.

Notation "x <- m1 ;; m2" := (bind m1 (fun x => m2))
  (at level 61, m1 at next level, right associativity).
Notation "m1 ;; m2" := (bind m1 (fun _ => m2))
  (at level 61, right associativity).

(** The [while True:] loop of a consumer, over the blocks [q.get()] hands
    it, in order; an exception that leaves an iteration ends the loop and
    the worker. *)
Fixpoint consumer_loop {Store : Type} (iteration : list string -> @M Store unit)
    (blocks : list (list string)) : @M Store unit :=
  match blocks with
  | [] => ret tt
  | b :: bs => iteration b ;; consumer_loop iteration bs
  end.

(** [blob_exists(container_client, blob_path)], identical in both scripts. *)
Definition blob_exists {Store} `{ContainerClient Store} (p : string) : M bool :=
  try_except (get_props p ;; ret true)
    (fun e => if is_resource_not_found e then ret false else raise e).

(** The [if verify_existence:] prologue of both per-item operations; [true]
    means the operation returned. *)
Definition existence_prologue {Store} `{ContainerClient Store}
    (verify_existence : bool) (p : string) : M bool :=
  if verify_existence then
    ex <- blob_exists p ;;
    if ex then ret false
    else emit (EvLog ("Warning: " ++ p ++ " does not exist")) ;; ret true
  else ret false.

(** Main-thread events of a run. *)
Inductive MainEvent :=
| MStartProducer
| MStartConsumer (i : nat)
| MThreadException (e : Exn)   (** a thread died; [threading.excepthook] reports it *)
| MLog (msg : string).

Definition is_worker_start (e : MainEvent) : bool :=
  match e with MStartProducer | MStartConsumer _ => true | _ => false end.

Definition workers_started (evs : list MainEvent) : nat :=
  List.length (filter is_worker_start evs).

(** [producer = Thread(target=producer_func, ...); producer.start()], the
    [n_threads] consumers and [producer.join()], up to the call of
    [q.join()]. The producer's exception, if any, is reported before
    [producer.join()] returns. [q.join()] returns, and ["Queue joined"] is
    printed, only once every put block is marked done: when the run of the
    queue ([run_step] below) is finished, which may never happen. Used by
    the thread and the process variants alike. *)
Definition start_and_join (g : PipelineGlobals) (fs : FileSystem) (f : string)
    : list MainEvent :=
  [MStartProducer]
  ++ map MStartConsumer (seq 0 (Z.to_nat (n_threads g)))
  ++ match snd (producer_func g fs f) with
     | Some e => [MThreadException e]
     | None => []
     end
  ++ [MLog "Producer finished"].

Definition isfile (fs : FileSystem) (f : string) : bool :=
  match fs f with Some _ => true | None => false end.

(** ** [parallel_change_blob_access_tier.py] *)
Module AccessTier.

Record Globals := mkGlobals {
  pipeline : PipelineGlobals;
  execute_changes : bool;
  force_tier_on_inferred_blobs : bool;
  verify_existence : bool;
  verify_access_tier : bool;
  sleep_time_after_op_ms : Z      (** [sleep_time_after_op], in milliseconds *)
}.

Definition default_globals : Globals := {|
  pipeline := default_pipeline_globals;
  execute_changes := true;
  force_tier_on_inferred_blobs := false;
  verify_existence := false;
  verify_access_tier := true;
  sleep_time_after_op_ms := 1
|}.

Definition valid_tiers : list string := ["Hot"; "Cool"; "Archive"].

Definition is_valid_tier (t : string) : bool := existsb (String.eqb t) valid_tiers.

Section Ops.

Context {Store : Type} `{ContainerClient Store}.
Variable cfg : Globals.

(** The [if verify_access_tier:] block; [true] means the operation
    returned (the [return] inside the [try]). *)
Definition verify_tier (p t : string) : M bool :=
  try_except
    (props <- get_props p ;;
     match blob_tier props with
     | None =>
         raise (mkExn AssertionError
                  "Error retrieving blob tier; is this a GPv1 storage account?")
     | Some tier =>
         if negb (is_valid_tier tier) then
           raise (mkExn AssertionError ("Unrecognized tier " ++ tier ++ " for " ++ p))
         else if String.eqb tier t then
           (* [force_tier = force_tier_on_inferred_blobs and
               properties['tier_inferred']]: the [and] reads the key only when
               forcing is on, and the lookup raises [KeyError('tier_inferred')]. *)
           if force_tier_on_inferred_blobs cfg then
             raise (mkExn KeyError "'tier_inferred'")
           else
             emit (EvLog ("Skipping " ++ p ++ ", already at tier " ++ t)) ;; ret true
         else ret false
     end)
    (fun e =>
       emit (EvLog ("Error verifying access tier for " ++ p ++ ": " ++ exn_msg e)) ;;
       ret false).

Definition is_archive (t : option string) : bool :=
  match t with Some x => String.eqb x "Archive" | None => false end.

(** The [try] block that issues the tier change. *)
Definition change_tier (p t : string) : M unit :=
  try_except
    (let check_archive_rehydration := String.eqb t "Archive" in
     original <- (if check_archive_rehydration
                  then props <- get_props p ;; ret (Some props)
                  else ret None) ;;
     when (verbose (pipeline cfg)) (emit (EvLog ("Setting " ++ p ++ " to " ++ t))) ;;
     set_tier t p ;;
     match original with
     | Some props =>
         if is_archive (blob_tier props) then
           match archive_status props with
           | None =>
               raise (mkExn TypeError "argument of type 'NoneType' is not iterable")
           | Some st =>
               if str_contains "rehydrate-pending" st then ret tt
               else emit (EvLog ("Error: blob " ++ p ++ " not re-hydrating"))
           end
         else ret tt
     | None => ret tt
     end)
    (fun e =>
       when (verbose (pipeline cfg))
         (if str_contains "BlobNotFound" (exn_msg e)
          then emit (EvLog (p ++ " does not exist"))
          else emit (EvLog ("Error setting " ++ p ++ " to " ++ t ++ ": " ++ exn_msg e)))).

(** [set_access_tier(container_client, blob_path, access_tier)] *)
Definition set_access_tier (p t : string) : M unit :=
  if negb (is_valid_tier t) then raise (mkExn AssertionError "") else
  returned <- existence_prologue (verify_existence cfg) p ;;
  if returned then ret tt else
  returned <- (if verify_access_tier cfg then verify_tier p t else ret false) ;;
  if returned then ret tt else
  if negb (execute_changes cfg) then
    when (verbose (pipeline cfg))
      (emit (EvLog ("Debug: not setting " ++ p ++ " to " ++ t)))
  else
    change_tier p t ;;
    when (0 <? sleep_time_after_op_ms cfg) (emit EvSleep).

(** One iteration of the [while True] loop of [consumer_func], after
    [q.get()] returned [block]. *)
Definition consumer_iteration (t : string) (block : list string) : M unit :=
  try_except
    (when (verbose (pipeline cfg))
       (emit (EvLog ("De-queuing " ++ string_of_nat (List.length block) ++ " paths"))) ;;
     for_each (fun p => set_access_tier p t) block)
    (fun e => emit (EvLog ("Consumer error: " ++ exn_msg e))) ;;
  emit EvTaskDone.

(** [consumer_func(q, container_client, access_tier)], serving [blocks]. *)
Definition consumer_func (t : string) (blocks : list (list string)) : M unit :=
  when (verbose (pipeline cfg)) (emit (EvLog "Consumer starting")) ;;
  consumer_loop (consumer_iteration t) blocks.

End Ops.

(** What an exception from [set_access_tier] does in a run: the operation
    raises only through the existence check (an error [blob_exists] lets
    through) or the tier assertion (see [nr_set_access_tier]), and the
    consumer's [try] catches it. *)
Definition item_failure (cfg : Globals) (t : string) : ItemFailure :=
  if verify_existence cfg || negb (is_valid_tier t) then AbandonsBlock else NeverRaises.

Definition file_assert (fs : FileSystem) (f : string) : option Exn :=
  if isfile fs f then None
  else Some (mkExn AssertionError ("File " ++ f ++ " does not exist")).

(** [parallel_set_access_tier_threads] and [..._processes], up to the call
    of [q.join()]: [inr tt] means the main thread reaches it; whether it
    returns is whether the run of the queue is finished. *)
Definition parallel_set_access_tier_workers (cfg : Globals) (fs : FileSystem) (f : string)
    : list MainEvent * (Exn + unit) :=
  match file_assert fs f with
  | Some e => ([], inl e)
  | None => (start_and_join (pipeline cfg) fs f, inr tt)
  end.

(** [parallel_set_access_tier(container_client, input_file, access_tier)] *)
Definition parallel_set_access_tier (cfg : Globals) (fs : FileSystem) (f : string)
    : list MainEvent * (Exn + unit) :=
  match file_assert fs f with
  | Some e => ([], inl e)
  | None => parallel_set_access_tier_workers cfg fs f
  end.

End AccessTier.

(** ** [parallel_delete_blobs.py] *)
Module DeleteBlobs.

Record Globals := mkGlobals {
  pipeline : PipelineGlobals;
  execute_deletions : bool;
  verify_existence : bool;
  sleep_time_after_deletion_ms : Z   (** [sleep_time_after_deletion], in milliseconds *)
}.

Definition default_globals : Globals := {|
  pipeline := default_pipeline_globals;
  execute_deletions := true;
  verify_existence := false;
  sleep_time_after_deletion_ms := 1
|}.

Section Ops.

Context {Store : Type} `{ContainerClient Store}.
Variable cfg : Globals.

(** [delete_blob(container_client, blob_path)] *)
Definition delete_blob (p : string) : M unit :=
  returned <- existence_prologue (verify_existence cfg) p ;;
  if returned then ret tt else
  if negb (execute_deletions cfg) then
    when (verbose (pipeline cfg)) (emit (EvLog ("Not deleting " ++ p)))
  else
    try_except
      (when (verbose (pipeline cfg)) (emit (EvLog ("Deleting " ++ p))) ;;
       delete_call p)
      (fun e =>
         when (verbose (pipeline cfg))
           (if str_contains "BlobNotFound" (exn_msg e)
            then emit (EvLog (p ++ " does not exist"))
            else emit (EvLog ("Error deleting " ++ p ++ ": " ++ exn_msg e)))) ;;
    when (0 <? sleep_time_after_deletion_ms cfg) (emit EvSleep).

(** One iteration of the [while True] loop of [consumer_func], after
    [q.get()] returned [block]; there is no [try] around it. *)
Definition consumer_iteration (block : list string) : M unit :=
  when (verbose (pipeline cfg))
    (emit (EvLog ("De-queuing " ++ string_of_nat (List.length block) ++ " paths"))) ;;
  for_each delete_blob block ;;
  emit EvTaskDone.

(** [consumer_func(q, container_client)], serving [blocks]. *)
Definition consumer_func (blocks : list (list string)) : M unit :=
  when (verbose (pipeline cfg)) (emit (EvLog "Consumer starting")) ;;
  consumer_loop consumer_iteration blocks.

End Ops.

(** What an exception from [delete_blob] does in a run: the operation
    raises only through the existence check (see [nr_delete_blob]), and the
    consumer has no [try]. *)
Definition item_failure (cfg : Globals) : ItemFailure :=
  if verify_existence cfg then KillsConsumer else NeverRaises.

(** [parallel_delete_blobs(container_client, input_file)]: [pinit], then the
    thread or process variant; neither checks the input file. As for the
    other script, [inr tt] means the main thread reaches [q.join()]. *)
Definition parallel_delete_blobs (cfg : Globals) (fs : FileSystem) (f : string)
    : list MainEvent * (Exn + unit) :=
  (start_and_join (pipeline cfg) fs f, inr tt).

End DeleteBlobs.

(** ** An in-memory container

    A container client over a list of blobs, for running the operations on
    concrete inputs: calls on a path listed in [throttled] fail with a
    server-busy error, a missing blob raises [ResourceNotFoundError], and a
    tier change takes effect at once. *)
Record SimStore := mkSimStore {
  sim_blobs : list (string * BlobProperties);
  throttled : list string
}.

Definition busy_error : Exn :=
  mkExn HttpResponseError "Operation could not be completed within the specified time. ErrorCode:ServerBusy".

Definition not_found_error : Exn :=
  mkExn ResourceNotFoundError "The specified blob does not exist. ErrorCode:BlobNotFound".

Definition sim_lookup (s : SimStore) (p : string) : option BlobProperties :=
  match find (fun kv => String.eqb (fst kv) p) (sim_blobs s) with
  | Some (_, props) => Some props
  | None => None
  end.

Definition sim_is_throttled (s : SimStore) (p : string) : bool :=
  existsb (String.eqb p) (throttled s).

Definition sim_get (s : SimStore) (p : string) : Exn + BlobProperties :=
  if sim_is_throttled s p then inl busy_error
  else match sim_lookup s p with
       | Some props => inr props
       | None => inl not_found_error
       end.

Definition sim_set_tier (s : SimStore) (t p : string) : Exn + SimStore :=
  if sim_is_throttled s p then inl busy_error
  else match sim_lookup s p with
       | Some props =>
           inr (mkSimStore
                  (map (fun kv => if String.eqb (fst kv) p
                                  then (p, mkBlobProperties (Some t) (Some false)
                                             (archive_status props))
                                  else kv) (sim_blobs s))
                  (throttled s))
       | None => inl not_found_error
       end.

Definition sim_delete (s : SimStore) (p : string) : Exn + SimStore :=
  if sim_is_throttled s p then inl busy_error
  else match sim_lookup s p with
       | Some _ =>
           inr (mkSimStore (filter (fun kv => negb (String.eqb (fst kv) p)) (sim_blobs s))
                  (throttled s))
       | None => inl not_found_error
       end.

#[export] Instance sim_client : ContainerClient SimStore := {|
  get_blob_properties := sim_get;
  set_standard_blob_tier_blobs := sim_set_tier;
  delete_blob_call := sim_delete
|}.

Definition at_tier (t : string) : BlobProperties := mkBlobProperties (Some t) (Some false) None.

(** ** Credentials ([get_container_client], identical in both scripts) *)




(** ** Progress lines of the counter *)

(** The number of progress lines [Counter.increment] prints ([b_print])
    over the increments of [evs]. *)
Fixpoint counter_prints (n_print : Z) (c : Counter) (evs : list PEvent) : nat :=
  match evs with
  | [] => O
  | PIncrement n :: r =>
      let '(c', b_print) := counter_increment n_print (Z.of_nat n) c in
      ((if b_print then 1 else 0) + counter_prints n_print c' r)%nat
  | _ :: r => counter_prints n_print c r
  end.

(** The sum of the increments in [evs]. *)
Fixpoint increment_total (evs : list PEvent) : Z :=
  match evs with
  | [] => 0
  | PIncrement n :: r => Z.of_nat n + increment_total r
  | _ :: r => increment_total r
  end.

(** ** Termination measure of a run

    Each step moves a block one place along pending, queue, held, or hands
    on one item, or finishes a held block. *)
Definition run_measure (st : RunState) : nat :=
  (list_sum (map (fun b => 3 + List.length b) (pending st))
   + list_sum (map (fun b => 2 + List.length b) (queue st))
   + list_sum (map (fun b => 1 + List.length b) (busy_workers st)))%nat.

(** ** Effects and run invariants *)

Definition no_mutation (evs : list Event) : bool := forallb (fun e => negb (is_mutating e)) evs.

(** [m] leaves the remote storage as it is and only adds events that are
    not mutating calls. *)
Definition read_only {Store : Type} {A : Type} (m : @M Store A) : Prop :=
  forall s l, exists l' r, m s l = (s, l ++ l', r) /\ no_mutation l' = true.

(** [m] returns normally, whatever the remote does. *)
Definition never_raises {Store : Type} {A : Type} (m : @M Store A) : Prop :=
  forall s l, exists s' l' a, m s l = (s', l', inr a).

(** How many events of [l] satisfy [f]. *)
Definition count_ev (f : Event -> bool) (l : list Event) : nat := List.length (filter f l).

(** [m] only appends events, at most [k] of which satisfy [f]. *)
Definition emits_at_most {Store : Type} {A : Type} (f : Event -> bool) (k : nat)
    (m : @M Store A) : Prop :=
  forall s l, exists s' l' r, m s l = (s', l ++ l', r) /\ (count_ev f l' <= k)%nat.

(** [m] returns normally and appends events, exactly [k] of which satisfy
    [f]. *)
Definition adds_exactly {Store : Type} {A : Type} (f : Event -> bool) (k : nat)
    (m : @M Store A) : Prop :=
  forall s l, exists s' l' a, m s l = (s', l ++ l', inr a) /\ count_ev f l' = k.

Definition is_task_done (e : Event) : bool :=
  match e with EvTaskDone => true | _ => false end.

Definition is_set_tier (e : Event) : bool :=
  match e with EvSetTier _ _ => true | _ => false end.

Definition is_delete (e : Event) : bool :=
  match e with EvDelete _ => true | _ => false end.

(** A remote call on a blob other than [p]. *)
Definition names_other_blob (p : string) (e : Event) : bool :=
  match e with
  | EvGetProps q | EvSetTier _ q | EvDelete q => negb (String.eqb q p)
  | _ => false
  end.

(** A tier change to a tier other than [t]. *)
Definition sets_other_tier (t : string) (e : Event) : bool :=
  match e with EvSetTier t' _ => negb (String.eqb t' t) | _ => false end.

(** The invariant of a run: every item of the put blocks is dispatched,
    abandoned, held by a busy consumer, queued or still to be put;
    [unfinished_tasks] counts the queued blocks, the held ones and those of
    dead consumers; the queue respects its bound; nothing is abandoned when
    the operation cannot raise, and no consumer dies unless the exception
    kills it. *)
Definition run_inv (g : PipelineGlobals) (k : ItemFailure) (blocks : list (list string))
    (st : RunState) : Prop :=
  Permutation (dispatched st ++ abandoned st ++ List.concat (busy_workers st)
               ++ List.concat (queue st) ++ List.concat (pending st))
              (List.concat blocks)
  /\ unfinished_tasks st
     = (List.length (queue st) + List.length (busy_workers st) + dead_workers st)%nat
  /\ (0 < max_queue_size g -> Z.of_nat (List.length (queue st)) <= max_queue_size g)
  /\ (k = NeverRaises -> abandoned st = [])
  /\ (k <> KillsConsumer -> dead_workers st = 0%nat).

(** ** Concrete inputs *)

Definition five_lines : list string := ["a.jpg"; "b.jpg"; "   "; "c.jpg"; "d.jpg"; "e.jpg"].

(** A file whose first line is blank, read with [blobs_to_skip = 1]. *)
Definition skip_globals : PipelineGlobals := {|
  debug_max_files := -1;
  verbose := false;
  use_threads := false;
  n_threads := 1;
  n_print := 5000;
  blobs_to_skip := 1;
  max_queue_size := 4;
  producer_block_size := 500
|}.

Definition skip_lines : list string := [""; "a.jpg"; "b.jpg"].

Definition skip_run_end : RunState := mkRunState [] [] 1 [] 0 ["a.jpg"; "b.jpg"] [] 0.

Definition dry_run_tier_globals : AccessTier.Globals := {|
  AccessTier.pipeline := default_pipeline_globals;
  AccessTier.execute_changes := false;
  AccessTier.force_tier_on_inferred_blobs := false;
  AccessTier.verify_existence := false;
  AccessTier.verify_access_tier := true;
  AccessTier.sleep_time_after_op_ms := 1
|}.

Definition existence_tier_globals : AccessTier.Globals := {|
  AccessTier.pipeline := default_pipeline_globals;
  AccessTier.execute_changes := true;
  AccessTier.force_tier_on_inferred_blobs := false;
  AccessTier.verify_existence := true;
  AccessTier.verify_access_tier := true;
  AccessTier.sleep_time_after_op_ms := 1
|}.

Definition existence_delete_globals : DeleteBlobs.Globals := {|
  DeleteBlobs.pipeline := default_pipeline_globals;
  DeleteBlobs.execute_deletions := true;
  DeleteBlobs.verify_existence := true;
  DeleteBlobs.sleep_time_after_deletion_ms := 1
|}.

Definition one_cool_blob : SimStore := mkSimStore [("a.jpg", at_tier "Cool")] [].

Definition one_hot_blob : SimStore := mkSimStore [("a.jpg", at_tier "Hot")] [].

Definition throttled_blob : SimStore := mkSimStore [("a.jpg", at_tier "Hot")] ["a.jpg"].

(** Two blobs; every call on the first one fails with a server-busy error. *)
Definition two_blobs_first_throttled : SimStore :=
  mkSimStore [("a.jpg", at_tier "Hot"); ("b.jpg", at_tier "Hot")] ["a.jpg"].

(** A run with a debug cap of two paths and a skip-count of one. *)
Definition cap_globals : PipelineGlobals := {|
  debug_max_files := 2;
  verbose := false;
  use_threads := false;
  n_threads := 1;
  n_print := 5000;
  blobs_to_skip := 1;
  max_queue_size := 4;
  producer_block_size := 500
|}.

Definition cap_lines : list string := ["header.txt"; "a.jpg"; ""; "b.jpg"; "c.jpg"].


Definition increments_ex : list PEvent := [PIncrement 1; PIncrement 1; PLog "x"; PIncrement 3].

(** Changes on, both checks off. *)
Definition archive_globals : AccessTier.Globals := {|
  AccessTier.pipeline := default_pipeline_globals;
  AccessTier.execute_changes := true;
  AccessTier.force_tier_on_inferred_blobs := false;
  AccessTier.verify_existence := false;
  AccessTier.verify_access_tier := false;
  AccessTier.sleep_time_after_op_ms := 1
|}.

(** One blob at ["Archive"], with no archive status. *)
Definition archived_blob : SimStore := mkSimStore [("a.jpg", at_tier "Archive")] [].

(** ** Producer lemmas *)

Section ProducerFacts.

Variable g : PipelineGlobals.
Hypothesis cap_disabled : debug_max_files g <= 0.

Lemma puts_app (a b : list PEvent) : puts (a ++ b) = puts a ++ puts b.
Proof. induction a as [|[] a IH]; simpl; try rewrite IH; reflexivity. Qed.

Lemma puts_verbose_prefix (b : bool) (m : string) :
  puts (if b then [PLog m] else []) = [].
Proof. destruct b; reflexivity. Qed.

Lemma cap_test_false (n : Z) : (0 <? debug_max_files g) && (debug_max_files g <=? n) = false.
Proof. destruct (Z.ltb_spec 0 (debug_max_files g)); [lia | reflexivity]. Qed.

(** With the debug cap disabled, the loop hands on every stripped non-blank
    line at an index [>= blobs_to_skip], in order, either in a put block or
    in the block left at the end. *)
Lemma producer_loop_items (lines : list string) :
  forall i cur, 0 <= i ->
  List.concat (puts (fst (producer_loop g i lines cur))) ++ snd (producer_loop g i lines cur)
  = cur ++ nonblank_items (skipn (Z.to_nat (blobs_to_skip g - i)) lines).
Proof.
  induction lines as [|raw rest IH]; intros i cur Hi.
  - simpl. rewrite skipn_nil. simpl. rewrite app_nil_r. reflexivity.
  - simpl producer_loop.
    destruct ((0 <? blobs_to_skip g) && (i <? blobs_to_skip g)) eqn:Hskip.
    + apply andb_true_iff in Hskip as [H1 H2].
      apply Z.ltb_lt in H1; apply Z.ltb_lt in H2.
      rewrite IH by lia.
      replace (Z.to_nat (blobs_to_skip g - i))
        with (S (Z.to_nat (blobs_to_skip g - (i + 1)))) by lia.
      reflexivity.
    + assert (Hz : Z.to_nat (blobs_to_skip g - i) = 0%nat).
      { apply andb_false_iff in Hskip as [H|H].
        - apply Z.ltb_ge in H. lia.
        - apply Z.ltb_ge in H. lia. }
      assert (Hz' : Z.to_nat (blobs_to_skip g - (i + 1)) = 0%nat) by lia.
      rewrite Hz. simpl skipn.
      unfold nonblank_items. simpl map. simpl filter.
      destruct (String.length (strip raw) =? 0)%nat eqn:Hb; simpl negb; cbv iota.
      * rewrite IH by lia. rewrite Hz'. reflexivity.
      * rewrite cap_test_false.
        destruct (Z.of_nat (List.length (cur ++ [strip raw])) =? producer_block_size g).
        -- destruct (producer_loop g (i + 1) rest []) as [evs fin] eqn:Hl.
           simpl fst; simpl snd.
           rewrite puts_app, puts_verbose_prefix. simpl.
           pose proof (IH (i + 1) [] ltac:(lia)) as IH1.
           rewrite Hl in IH1. simpl in IH1. rewrite Hz' in IH1.
           rewrite <- app_assoc, IH1. rewrite <- app_assoc. reflexivity.
        -- rewrite IH by lia. rewrite Hz'. rewrite <- app_assoc. reflexivity.
Qed.

(** For a positive block size, every put block is full and the block left
    at the end is shorter than a full one. *)
Lemma producer_loop_sizes (lines : list string) :
  0 < producer_block_size g ->
  forall i cur, Z.of_nat (List.length cur) < producer_block_size g ->
  Forall (fun b => Z.of_nat (List.length b) = producer_block_size g)
         (puts (fst (producer_loop g i lines cur)))
  /\ Z.of_nat (List.length (snd (producer_loop g i lines cur))) < producer_block_size g.
Proof.
  intros HB. induction lines as [|raw rest IH]; intros i cur Hc.
  - simpl. split; [constructor | exact Hc].
  - simpl producer_loop.
    destruct ((0 <? blobs_to_skip g) && (i <? blobs_to_skip g)); [apply IH; exact Hc|].
    destruct (String.length (strip raw) =? 0)%nat; [apply IH; exact Hc|].
    rewrite cap_test_false.
    destruct (Z.of_nat (List.length (cur ++ [strip raw])) =? producer_block_size g) eqn:Hf.
    + apply Z.eqb_eq in Hf.
      destruct (producer_loop g (i + 1) rest []) as [evs fin] eqn:Hl.
      pose proof (IH (i + 1) [] ltac:(simpl; lia)) as [IHa IHb].
      rewrite Hl in IHa, IHb. simpl in IHa, IHb |- *.
      rewrite puts_app, puts_verbose_prefix. simpl.
      split; [constructor; assumption | assumption].
    + apply Z.eqb_neq in Hf. apply IH.
      rewrite length_app in *. simpl in *. lia.
Qed.

End ProducerFacts.

Lemma produced_blocks_eq (g : PipelineGlobals) (fs : FileSystem) (f : string)
    (lines : list string) :
  fs f = Some lines ->
  produced_blocks g fs f
  = puts (fst (producer_loop g 0 lines [])) ++ [snd (producer_loop g 0 lines [])].
Proof.
  intros Hf. unfold produced_blocks, producer_func. rewrite Hf.
  destruct (producer_loop g 0 lines []) as [evs fin]. simpl.
  rewrite puts_app. reflexivity.
Qed.

(** Every item the producer reads ends up in exactly one put block, in
    order: the blocks, concatenated, are the stripped non-blank lines at
    index [>= blobs_to_skip]. *)
Lemma produced_blocks_concat (g : PipelineGlobals) (fs : FileSystem) (f : string)
    (lines : list string) :
  debug_max_files g <= 0 -> fs f = Some lines ->
  List.concat (produced_blocks g fs f)
  = nonblank_items (skipn (Z.to_nat (blobs_to_skip g)) lines).
Proof.
  intros Hcap Hf. rewrite (produced_blocks_eq g fs f lines Hf).
  rewrite List.concat_app. simpl. rewrite app_nil_r.
  pose proof (producer_loop_items g Hcap lines 0 [] ltac:(lia)) as H.
  rewrite Z.sub_0_r in H. exact H.
Qed.

Lemma length_concat_uniform (B : nat) (bs : list (list string)) :
  Forall (fun b => List.length b = B) bs ->
  List.length (List.concat bs) = (List.length bs * B)%nat.
Proof.
  induction 1 as [|b bs Hb _ IH]; simpl; [reflexivity|].
  rewrite length_app, Hb, IH. reflexivity.
Qed.

(** ** The queue invariant *)

(** Closes [Permutation l l'] by counting the occurrences of every
    string on both sides. *)
Ltac perm_by_count :=
  apply Permutation_count_occ with (eq_dec := string_dec); intros ?y;
  rewrite ?List.concat_app; cbn [List.concat app];
  repeat (rewrite ?count_occ_app; cbn [count_occ app]);
  repeat match goal with |- context [string_dec ?a ?b] => destruct (string_dec a b) end;
  lia.

Section RunFacts.

Variable g : PipelineGlobals.
Variable k : ItemFailure.
Variable blocks : list (list string).

Lemma run_inv_init : run_inv g k blocks (run_init g blocks).
Proof.
  unfold run_inv, run_init; simpl. repeat split; [apply Permutation_refl | lia].
Qed.

Lemma run_inv_step (st st' : RunState) :
  run_step g k st st' -> run_inv g k blocks st -> run_inv g k blocks st'.
Proof.
  intros Hs (Hp & Hu & Hq & Ha & Hw). inversion Hs; subst; unfold run_inv;
    cbn [dispatched abandoned busy_workers queue pending unfinished_tasks dead_workers] in *;
    (split; [eapply Permutation_trans; [|exact Hp]; perm_by_count|]).
  - (* put *)
    repeat split; try assumption.
    + rewrite length_app. simpl. lia.
    + intros Hpos. unfold can_put in H. apply orb_true_iff in H as [H|H].
      * apply Z.leb_le in H. lia.
      * apply Z.ltb_lt in H. rewrite length_app. simpl. lia.
  - (* get *)
    repeat split; try assumption.
    + simpl in *. lia.
    + intros Hpos. specialize (Hq Hpos). simpl in Hq. lia.
  - (* item *)
    repeat split; try assumption. rewrite Hu, !length_app. reflexivity.
  - (* task_done *)
    repeat split; try assumption. rewrite Hu, !length_app. simpl. lia.
  - (* an exception caught by the consumer *)
    repeat split; try assumption.
    + rewrite Hu, !length_app. simpl. lia.
    + intros Hk. congruence.
  - (* an exception that ends the consumer *)
    repeat split; try assumption.
    + rewrite Hu, !length_app. simpl. lia.
    + intros Hk. congruence.
    + intros Hk. congruence.
Qed.

Lemma run_inv_reachable (st : RunState) : run_reachable g k blocks st -> run_inv g k blocks st.
Proof.
  unfold run_reachable.
  assert (Hgen : forall x y, clos_refl_trans_1n _ (run_step g k) x y ->
            run_inv g k blocks x -> run_inv g k blocks y).
  { induction 1 as [x|x y z Hxy _ IH]; intros Hx; [exact Hx|].
    apply IH. exact (run_inv_step x y Hxy Hx). }
  intros H. apply (Hgen _ _ H run_inv_init).
Qed.

(** When [q.join()] has returned after [producer.join()], every item of
    every put block has been handed to the per-item operation once or
    abandoned. *)
Lemma finished_dispatched (st : RunState) :
  run_reachable g k blocks st -> run_finished st ->
  Permutation (dispatched st ++ abandoned st) (List.concat blocks).
Proof.
  intros Hr [Hpend Hunf]. destruct (run_inv_reachable st Hr) as (Hp & Hu & _).
  rewrite Hunf in Hu.
  destruct (queue st) eqn:Eq; [|simpl in Hu; lia].
  destruct (busy_workers st) eqn:Eb; [|simpl in Hu; lia].
  rewrite Hpend in Hp. simpl in Hp. rewrite !app_nil_r in Hp. exact Hp.
Qed.

End RunFacts.

(** ** Effects of the per-item operations *)

Section Effects.

Context {Store : Type} `{ContainerClient Store}.

Local Abbreviation MS := (@M Store).

Lemma no_mutation_app (a b : list Event) :
  no_mutation (a ++ b) = no_mutation a && no_mutation b.
Proof. unfold no_mutation. apply forallb_app. Qed.

Lemma ro_ret {A} (a : A) : read_only (ret (Store := Store) a).
Proof. intros s l. exists [], (inr a). rewrite app_nil_r. split; reflexivity. Qed.

Lemma ro_raise {A} (e : Exn) : read_only (raise (Store := Store) (A := A) e).
Proof. intros s l. exists [], (inl e). rewrite app_nil_r. split; reflexivity. Qed.

Lemma ro_emit (e : Event) : is_mutating e = false -> read_only (emit (Store := Store) e).
Proof.
  intros He s l. exists [e], (inr tt). split; [reflexivity|].
  unfold no_mutation. simpl. rewrite He. reflexivity.
Qed.

Lemma ro_get_props (p : string) : read_only (get_props p).
Proof.
  intros s l. exists [EvGetProps p], (get_blob_properties s p). split; reflexivity.
Qed.

Lemma ro_bind {A B} (m : MS A) (k : A -> MS B) :
  read_only m -> (forall a, read_only (k a)) -> read_only (bind m k).
Proof.
  intros Hm Hk s l. destruct (Hm s l) as (l1 & r1 & E1 & N1).
  unfold bind. rewrite E1. destruct r1 as [e|a].
  - exists l1, (inl e). split; [reflexivity | exact N1].
  - destruct (Hk a s (l ++ l1)) as (l2 & r2 & E2 & N2). rewrite E2.
    exists (l1 ++ l2), r2. rewrite app_assoc. split; [reflexivity|].
    rewrite no_mutation_app, N1, N2. reflexivity.
Qed.

Lemma ro_try {A} (m : MS A) (h : Exn -> MS A) :
  read_only m -> (forall e, read_only (h e)) -> read_only (try_except m h).
Proof.
  intros Hm Hh s l. destruct (Hm s l) as (l1 & r1 & E1 & N1).
  unfold try_except. rewrite E1. destruct r1 as [e|a].
  - destruct (Hh e s (l ++ l1)) as (l2 & r2 & E2 & N2). rewrite E2.
    exists (l1 ++ l2), r2. rewrite app_assoc. split; [reflexivity|].
    rewrite no_mutation_app, N1, N2. reflexivity.
  - exists l1, (inr a). split; [reflexivity | exact N1].
Qed.

Lemma ro_when (b : bool) (m : MS unit) : read_only m -> read_only (when b m).
Proof. intros Hm. destruct b; [exact Hm | apply ro_ret]. Qed.

Ltac ro_solve :=
  repeat match goal with
  | |- read_only (bind _ _) => apply ro_bind; [|intro]
  | |- read_only (try_except _ _) => apply ro_try; [|intro]
  | |- read_only (ret _) => apply ro_ret
  | |- read_only (raise _) => apply ro_raise
  | |- read_only (emit _) => apply ro_emit; reflexivity
  | |- read_only (get_props _) => apply ro_get_props
  | |- read_only (when _ _) => apply ro_when
  | |- read_only (if ?b then _ else _) => destruct b
  | |- read_only (match ?x with _ => _ end) => destruct x
  end.

Lemma ro_blob_exists (p : string) : read_only (blob_exists p).
Proof. unfold blob_exists. ro_solve. Qed.

Lemma ro_existence_prologue (v : bool) (p : string) :
  read_only (existence_prologue v p).
Proof. unfold existence_prologue. destruct v; [|apply ro_ret]. apply ro_bind; [apply ro_blob_exists|]. intros ex. ro_solve. Qed.

Lemma ro_verify_tier (cfg : AccessTier.Globals) (p t : string) :
  read_only (AccessTier.verify_tier cfg p t).
Proof. unfold AccessTier.verify_tier. cbv zeta. ro_solve. Qed.

(** With [execute_changes] off, [set_access_tier] only reads. *)
Lemma ro_set_access_tier_dry (cfg : AccessTier.Globals) (p t : string) :
  AccessTier.execute_changes cfg = false -> read_only (AccessTier.set_access_tier cfg p t).
Proof.
  intros Hx. unfold AccessTier.set_access_tier. rewrite Hx.
  destruct (negb (AccessTier.is_valid_tier t)); [apply ro_raise|].
  apply ro_bind; [apply ro_existence_prologue|]. intros r1. destruct r1; [apply ro_ret|].
  apply ro_bind; [destruct (AccessTier.verify_access_tier cfg); [apply ro_verify_tier | apply ro_ret]|].
  intros r2. destruct r2; [apply ro_ret|]. simpl. ro_solve.
Qed.

(** With [execute_deletions] off, [delete_blob] only reads. *)
Lemma ro_delete_blob_dry (cfg : DeleteBlobs.Globals) (p : string) :
  DeleteBlobs.execute_deletions cfg = false -> read_only (DeleteBlobs.delete_blob cfg p).
Proof.
  intros Hx. unfold DeleteBlobs.delete_blob. rewrite Hx.
  apply ro_bind; [apply ro_existence_prologue|]. intros r1. destruct r1; [apply ro_ret|].
  simpl. ro_solve.
Qed.

Lemma nr_ret {A} (a : A) : never_raises (ret (Store := Store) a).
Proof. intros s l. exists s, l, a. reflexivity. Qed.

Lemma nr_emit (e : Event) : never_raises (emit (Store := Store) e).
Proof. intros s l. exists s, (l ++ [e]), tt. reflexivity. Qed.

Lemma nr_when (b : bool) (m : MS unit) : never_raises m -> never_raises (when b m).
Proof. intros Hm. destruct b; [exact Hm | apply nr_ret]. Qed.

Lemma nr_bind {A B} (m : MS A) (k : A -> MS B) :
  never_raises m -> (forall a, never_raises (k a)) -> never_raises (bind m k).
Proof.
  intros Hm Hk s l. destruct (Hm s l) as (s1 & l1 & a1 & E1).
  unfold bind. rewrite E1. apply Hk.
Qed.

(** A [try] whose handler cannot raise cannot raise, whatever its body
    does. *)
Lemma nr_try {A} (m : MS A) (h : Exn -> MS A) :
  (forall e, never_raises (h e)) -> never_raises (try_except m h).
Proof.
  intros Hh s l. unfold try_except. destruct (m s l) as [[s1 l1] [e|a]].
  - apply Hh.
  - exists s1, l1, a. reflexivity.
Qed.

Lemma nr_for_each (f : string -> MS unit) (xs : list string) :
  (forall x, never_raises (f x)) -> never_raises (for_each f xs).
Proof.
  intros Hf. induction xs as [|x xs IH]; simpl; [apply nr_ret|].
  apply nr_bind; [apply Hf | intros _; exact IH].
Qed.

Lemma nr_verify_tier (cfg : AccessTier.Globals) (p t : string) :
  never_raises (AccessTier.verify_tier cfg p t).
Proof.
  unfold AccessTier.verify_tier. apply nr_try. intros e.
  apply nr_bind; [apply nr_emit | intros; apply nr_ret].
Qed.

Lemma nr_change_tier (cfg : AccessTier.Globals) (p t : string) :
  never_raises (AccessTier.change_tier cfg p t).
Proof.
  unfold AccessTier.change_tier. apply nr_try. intros e.
  apply nr_when. destruct (str_contains _ _); apply nr_emit.
Qed.

(** With the existence check off and a valid tier, [set_access_tier]
    returns normally whatever its remote calls raise. *)
Lemma nr_set_access_tier (cfg : AccessTier.Globals) (p t : string) :
  AccessTier.verify_existence cfg = false -> AccessTier.is_valid_tier t = true ->
  never_raises (AccessTier.set_access_tier cfg p t).
Proof.
  intros Hv Ht. unfold AccessTier.set_access_tier. rewrite Ht, Hv. simpl negb.
  unfold existence_prologue. apply nr_bind; [apply nr_ret|]. intros r1.
  destruct r1; [apply nr_ret|].
  apply nr_bind; [destruct (AccessTier.verify_access_tier cfg); [apply nr_verify_tier | apply nr_ret]|].
  intros r2. destruct r2; [apply nr_ret|].
  destruct (negb (AccessTier.execute_changes cfg)).
  - apply nr_when, nr_emit.
  - apply nr_bind; [apply nr_change_tier | intros; apply nr_when, nr_emit].
Qed.

(** With the existence check off, [delete_blob] returns normally whatever
    its remote call raises. *)
Lemma nr_delete_blob (cfg : DeleteBlobs.Globals) (p : string) :
  DeleteBlobs.verify_existence cfg = false -> never_raises (DeleteBlobs.delete_blob cfg p).
Proof.
  intros Hv. unfold DeleteBlobs.delete_blob. rewrite Hv.
  unfold existence_prologue. apply nr_bind; [apply nr_ret|]. intros r1.
  destruct r1; [apply nr_ret|].
  destruct (negb (DeleteBlobs.execute_deletions cfg)).
  - apply nr_when, nr_emit.
  - apply nr_bind.
    + apply nr_try. intros e. apply nr_when. destruct (str_contains _ _); apply nr_emit.
    + intros; apply nr_when, nr_emit.
Qed.

(** A [when] followed by [emit EvTaskDone] ends with the task-done event. *)
Lemma ends_with_task_done (m : MS unit) :
  never_raises m ->
  forall s l, exists s' l', bind m (fun _ => emit (Store := Store) EvTaskDone) s l
                            = (s', l' ++ [EvTaskDone], inr tt).
Proof.
  intros Hm s l. destruct (Hm s l) as (s1 & l1 & [] & E). unfold bind. rewrite E.
  exists s1, l1. reflexivity.
Qed.

(** A blob the remote reports at the requested tier is skipped. *)
Lemma set_access_tier_at_tier_run (cfg : AccessTier.Globals) (p t : string) (s : Store)
    (l : list Event) (props : BlobProperties) :
  AccessTier.is_valid_tier t = true -> AccessTier.verify_access_tier cfg = true ->
  AccessTier.force_tier_on_inferred_blobs cfg = false ->
  get_blob_properties s p = inr props -> blob_tier props = Some t ->
  AccessTier.set_access_tier cfg p t s l
  = (s, l ++ (if AccessTier.verify_existence cfg then [EvGetProps p] else [])
          ++ [EvGetProps p; EvLog ("Skipping " ++ p ++ ", already at tier " ++ t)], inr tt).
Proof.
  intros Ht Hva Hf Hget Htier.
  unfold AccessTier.set_access_tier. rewrite Ht, Hva. simpl negb.
  cbv beta iota delta [bind try_except get_props ret emit existence_prologue
                       blob_exists AccessTier.verify_tier negb].
  destruct (AccessTier.verify_existence cfg); cbv beta iota;
    repeat (rewrite Hget; cbv beta iota zeta);
    rewrite Htier, Ht, String.eqb_refl, Hf; cbv beta iota;
    rewrite <- !app_assoc; reflexivity.
Qed.

End Effects.

(** ** Concrete runs *)

Example strip_ex : strip (String (ascii_of_nat 9) " a/b.jpg  ") = "a/b.jpg". Proof. reflexivity. Qed.
Example produce_5_2 :
  map (@List.length _) (produced_blocks (module_globals 2 2)
     (fs_of "in.txt" ["a"; "b"; " "; "c"; "d"; "e"]) "in.txt") = [2; 2; 1]%nat.
Proof. reflexivity. Qed.

Lemma skip_run_reachable (k : ItemFailure) :
  run_reachable skip_globals k
    (produced_blocks skip_globals (fs_of "in.txt" skip_lines) "in.txt") skip_run_end.
Proof.
  unfold run_reachable, run_init. vm_compute produced_blocks.
  eapply Relation_Operators.rt1n_trans; [apply step_put; reflexivity|].
  eapply Relation_Operators.rt1n_trans; [apply step_get|].
  eapply Relation_Operators.rt1n_trans;
    [apply (step_item skip_globals k [] "a.jpg" ["b.jpg"] [])|].
  eapply Relation_Operators.rt1n_trans; [apply (step_item skip_globals k [] "b.jpg" [] [])|].
  eapply Relation_Operators.rt1n_trans; [apply (step_task_done skip_globals k [] [])|].
  apply Relation_Operators.rt1n_refl.
Qed.

(** * Claims *)

(** C8: with no skip-count and the debug cap disabled, for an input of [n]
    stripped non-blank lines and block size [B > 0], the producer puts
    [n / B] blocks of exactly [B] items followed by one final block of
    [n mod B] items (possibly empty); the blocks, concatenated, are the
    items in input order, so each item is in exactly one block. *)
Theorem producer_blocks_in_order (g : PipelineGlobals) (fs : FileSystem) (f : string)
    (lines : list string) :
  blobs_to_skip g <= 0 -> debug_max_files g <= 0 -> 0 < producer_block_size g ->
  fs f = Some lines ->
  let items := nonblank_items lines in
  let B := Z.to_nat (producer_block_size g) in
  exists full fin,
    produced_blocks g fs f = full ++ [fin]
    /\ Forall (fun b => List.length b = B) full
    /\ List.length full = (List.length items / B)%nat
    /\ List.length fin = (List.length items mod B)%nat
    /\ List.concat (full ++ [fin]) = items.
Proof.
  intros Hskip Hcap HB Hf items B.
  pose proof (produced_blocks_concat g fs f lines Hcap Hf) as Hc.
  replace (Z.to_nat (blobs_to_skip g)) with 0%nat in Hc by lia.
  simpl skipn in Hc. fold items in Hc.
  rewrite (produced_blocks_eq g fs f lines Hf) in Hc |- *.
  destruct (producer_loop_sizes g Hcap lines HB 0 [] ltac:(simpl; lia)) as [Hfull Hfin].
  set (full := puts (fst (producer_loop g 0 lines []))) in *.
  set (fin := snd (producer_loop g 0 lines [])) in *.
  assert (HF : Forall (fun b => List.length b = B) full).
  { eapply Forall_impl; [|exact Hfull]. intros b Hb. cbv beta in Hb. unfold B. lia. }
  assert (Hlen : List.length items = (B * List.length full + List.length fin)%nat).
  { rewrite <- Hc, List.concat_app, length_app, (length_concat_uniform B full HF).
    simpl. rewrite app_nil_r. lia. }
  assert (HfinB : (List.length fin < B)%nat) by (unfold B; lia).
  exists full, fin. repeat split.
  - exact HF.
  - apply (Nat.div_unique _ _ _ (List.length fin) HfinB Hlen).
  - apply (Nat.mod_unique _ _ (List.length full) _ HfinB Hlen).
  - exact Hc.
Qed.

Lemma producer_blocks_in_order_witness :
  exists full fin,
    produced_blocks (module_globals 2 2) (fs_of "in.txt" five_lines) "in.txt" = full ++ [fin]
    /\ Forall (fun b => List.length b = 2%nat) full
    /\ List.length full = (5 / 2)%nat
    /\ List.length fin = (5 mod 2)%nat
    /\ List.concat (full ++ [fin]) = nonblank_items five_lines.
Proof.
  apply (producer_blocks_in_order (module_globals 2 2) (fs_of "in.txt" five_lines)
           "in.txt" five_lines); simpl; try lia; reflexivity.
Defined.

(** C9: for every [n_threads >= 1], with [max_queue_size = n_threads*4] as
    the module computes it, no reachable state of a run holds more than
    [n_threads*4] blocks in the queue, whatever the per-item operation
    raises. *)
Theorem queue_depth_bounded (g : PipelineGlobals) (k : ItemFailure) (fs : FileSystem)
    (f : string) (st : RunState) :
  1 <= n_threads g -> max_queue_size g = n_threads g * 4 ->
  run_reachable g k (produced_blocks g fs f) st ->
  Z.of_nat (List.length (queue st)) <= n_threads g * 4.
Proof.
  intros Hn Hmax Hr.
  destruct (run_inv_reachable g k _ st Hr) as (_ & _ & Hq & _).
  rewrite <- Hmax. apply Hq. lia.
Qed.

Lemma queue_depth_bounded_witness :
  Z.of_nat (List.length (queue (mkRunState [] [["a.jpg"; "b.jpg"]] 1 [] 1 [] [] 0))) <= 1 * 4.
Proof.
  apply (queue_depth_bounded (module_globals 1 500) KillsConsumer
           (fs_of "in.txt" ["a.jpg"; "b.jpg"]) "in.txt"); [simpl; lia | reflexivity |].
  unfold run_reachable, run_init. vm_compute produced_blocks.
  eapply Relation_Operators.rt1n_trans; [apply step_put; reflexivity|]. apply Relation_Operators.rt1n_refl.
Defined.

(** C2 (as stated, refuted): a completed run over [""; "a.jpg"; "b.jpg"]
    with [blobs_to_skip = 1] hands two items to the per-item operation,
    while two non-blank lines minus a skip-count of one is one. *)
Lemma dispatched_count_counterexample :
  exists st,
    run_reachable skip_globals NeverRaises
      (produced_blocks skip_globals (fs_of "in.txt" skip_lines) "in.txt") st
    /\ run_finished st
    /\ List.length (dispatched st)
       <> (List.length (nonblank_items skip_lines) - Z.to_nat (blobs_to_skip skip_globals))%nat.
Proof.
  exists skip_run_end. split; [exact (skip_run_reachable NeverRaises)|].
  split; [split; reflexivity|]. vm_compute. discriminate.
Qed.

(** C2 (amended): with the debug cap disabled and a per-item operation
    that cannot raise (the existence check off and, for the access-tier
    script, a valid tier), in every run that completes ([producer.join()]
    and [q.join()] returned) the items handed to the per-item operation
    are, up to order, the stripped non-blank lines at line index
    [>= blobs_to_skip], each once: the skip-count drops leading lines,
    blank or not. This holds for every worker count and block size. *)
Theorem dispatched_items (g : PipelineGlobals) (k : ItemFailure) (fs : FileSystem)
    (f : string) (lines : list string) (st : RunState) :
  (exists cfg t, AccessTier.verify_existence cfg = false /\ AccessTier.is_valid_tier t = true
                 /\ k = AccessTier.item_failure cfg t)
  \/ (exists cfg, DeleteBlobs.verify_existence cfg = false /\ k = DeleteBlobs.item_failure cfg) ->
  debug_max_files g <= 0 -> fs f = Some lines ->
  run_reachable g k (produced_blocks g fs f) st -> run_finished st ->
  Permutation (dispatched st) (nonblank_items (skipn (Z.to_nat (blobs_to_skip g)) lines))
  /\ List.length (dispatched st)
     = List.length (nonblank_items (skipn (Z.to_nat (blobs_to_skip g)) lines)).
Proof.
  intros Hk Hcap Hf Hr Hfin.
  assert (Hk0 : k = NeverRaises).
  { destruct Hk as [(cfg & t & Hv & Ht & ->) | (cfg & Hv & ->)].
    - unfold AccessTier.item_failure. rewrite Hv, Ht. reflexivity.
    - unfold DeleteBlobs.item_failure. rewrite Hv. reflexivity. }
  pose proof (finished_dispatched g k _ st Hr Hfin) as Hp.
  destruct (run_inv_reachable g k _ st Hr) as (_ & _ & _ & Ha & _).
  rewrite (Ha Hk0), app_nil_r in Hp.
  rewrite (produced_blocks_concat g fs f lines Hcap Hf) in Hp.
  split; [exact Hp | apply Permutation_length; exact Hp].
Qed.

Lemma dispatched_items_witness :
  Permutation (dispatched skip_run_end) (nonblank_items (skipn 1 skip_lines))
  /\ List.length (dispatched skip_run_end) = List.length (nonblank_items (skipn 1 skip_lines)).
Proof.
  apply (dispatched_items skip_globals NeverRaises (fs_of "in.txt" skip_lines) "in.txt"
           skip_lines skip_run_end);
    [| simpl; lia | reflexivity | exact (skip_run_reachable NeverRaises) | split; reflexivity].
  left. exists AccessTier.default_globals, "Hot". split; [reflexivity | split; reflexivity].
Defined.

(** C1 (code bug): on a five-item file with block size 2 the counter goes
    through 2 and 4 and ends at 4, while the producer put 5 items on the
    queue: the final partial block is put without [cnt.increment]. *)
Theorem counter_misses_final_block :
  let g := module_globals 2 2 in
  let fs := fs_of "in.txt" five_lines in
  counter_values (n_print g) (new_counter (-1)) (fst (producer_func g fs "in.txt")) = [2; 4]
  /\ final_counter_value g fs "in.txt" = 4
  /\ items_queued g fs "in.txt" = 5%nat.
Proof. vm_compute. repeat split. Qed.

(** C5 (code bug): for a missing input file, [parallel_set_access_tier]
    fails its [os.path.isfile] assertion before starting any worker, while
    [parallel_delete_blobs] starts the producer thread and all 100
    consumers, the producer thread dies with [FileNotFoundError] having put
    no block, so [q.join()] returns at once (the run of the queue is
    finished in its initial state) and the call returns normally. *)
Theorem missing_input_file_runs :
  let fs : FileSystem := fun _ => None in
  AccessTier.parallel_set_access_tier AccessTier.default_globals fs "missing.txt"
    = ([], inl (mkExn AssertionError "File missing.txt does not exist"))
  /\ workers_started
       (fst (DeleteBlobs.parallel_delete_blobs DeleteBlobs.default_globals fs "missing.txt"))
     = 101%nat
  /\ In (MThreadException (mkExn FileNotFoundError
          "[Errno 2] No such file or directory: 'missing.txt'"))
       (fst (DeleteBlobs.parallel_delete_blobs DeleteBlobs.default_globals fs "missing.txt"))
  /\ snd (DeleteBlobs.parallel_delete_blobs DeleteBlobs.default_globals fs "missing.txt")
     = inr tt
  /\ run_finished
       (run_init (DeleteBlobs.pipeline DeleteBlobs.default_globals)
          (produced_blocks (DeleteBlobs.pipeline DeleteBlobs.default_globals) fs "missing.txt")).
Proof.
  intros fs. split; [reflexivity|]. split; [vm_compute; reflexivity|].
  split; [|split; [reflexivity | split; vm_compute; reflexivity]].
  vm_compute. repeat (first [left; reflexivity | right]).
Qed.

(** C7: with [verify_access_tier] on and no forcing, a blob the remote
    reports at the requested tier is skipped: a skip line is printed, no
    mutating call is issued and the remote storage is unchanged. *)
Theorem set_access_tier_skips_at_tier {Store : Type} `{ContainerClient Store}
    (cfg : AccessTier.Globals) (p t : string) (s : Store) (props : BlobProperties) :
  AccessTier.is_valid_tier t = true -> AccessTier.verify_access_tier cfg = true ->
  AccessTier.force_tier_on_inferred_blobs cfg = false ->
  get_blob_properties s p = inr props -> blob_tier props = Some t ->
  let '(s', evs, r) := AccessTier.set_access_tier cfg p t s [] in
  s' = s /\ r = inr tt
  /\ In (EvLog ("Skipping " ++ p ++ ", already at tier " ++ t)) evs
  /\ no_mutation evs = true.
Proof.
  intros Ht Hva Hf Hget Htier.
  rewrite (set_access_tier_at_tier_run cfg p t s [] props Ht Hva) by (rewrite ?Hf; assumption || reflexivity).
  repeat split.
  - apply in_or_app; right. apply in_or_app; right. simpl. auto.
  - destruct (AccessTier.verify_existence cfg); reflexivity.
Qed.

Lemma set_access_tier_skips_at_tier_witness :
  let '(s', evs, r) := AccessTier.set_access_tier AccessTier.default_globals "a.jpg" "Hot"
                          one_hot_blob [] in
  s' = one_hot_blob /\ r = inr tt
  /\ In (EvLog ("Skipping " ++ "a.jpg" ++ ", already at tier " ++ "Hot")) evs
  /\ no_mutation evs = true.
Proof.
  apply (set_access_tier_skips_at_tier AccessTier.default_globals "a.jpg" "Hot" one_hot_blob
           (at_tier "Hot")); reflexivity.
Defined.

(** C10: with the execute flag off ([execute_changes] for tier changes,
    [execute_deletions] for deletions), the per-item operation issues no
    tier change and no deletion and leaves the remote storage unchanged;
    the only remote calls it makes are property reads. *)
Theorem dry_run_leaves_store {Store : Type} `{ContainerClient Store}
    (cfg_t : AccessTier.Globals) (cfg_d : DeleteBlobs.Globals) (p t : string) (s : Store) :
  AccessTier.execute_changes cfg_t = false -> DeleteBlobs.execute_deletions cfg_d = false ->
  (let '(s', evs, _) := AccessTier.set_access_tier cfg_t p t s [] in
   s' = s /\ no_mutation evs = true)
  /\ (let '(s', evs, _) := DeleteBlobs.delete_blob cfg_d p s [] in
      s' = s /\ no_mutation evs = true).
Proof.
  intros Hxt Hxd. split.
  - destruct (ro_set_access_tier_dry cfg_t p t Hxt s []) as (l' & r & E & N).
    rewrite E. split; [reflexivity | exact N].
  - destruct (ro_delete_blob_dry cfg_d p Hxd s []) as (l' & r & E & N).
    rewrite E. split; [reflexivity | exact N].
Qed.

Lemma dry_run_leaves_store_witness :
  (let '(s', evs, _) := AccessTier.set_access_tier dry_run_tier_globals "a.jpg" "Hot"
                          one_cool_blob [] in
   s' = one_cool_blob /\ no_mutation evs = true)
  /\ (let '(s', evs, _) :=
        DeleteBlobs.delete_blob
          {| DeleteBlobs.pipeline := default_pipeline_globals;
             DeleteBlobs.execute_deletions := false;
             DeleteBlobs.verify_existence := false;
             DeleteBlobs.sleep_time_after_deletion_ms := 1 |} "a.jpg" one_cool_blob [] in
      s' = one_cool_blob /\ no_mutation evs = true).
Proof. apply dry_run_leaves_store; reflexivity. Defined.

(** C6 (as stated, refuted): in dry-run mode ([execute_changes = False]) a
    Cool blob set to Hot twice is left Cool, and the second call prints no
    skip line (it prints nothing at all). *)
Lemma idempotence_counterexample :
  let '(s1, _, _) := AccessTier.set_access_tier dry_run_tier_globals "a.jpg" "Hot"
                       one_cool_blob [] in
  let '(s2, evs2, _) := AccessTier.set_access_tier dry_run_tier_globals "a.jpg" "Hot" s1 [] in
  s2 = one_cool_blob /\ forall m, ~ In (EvLog m) evs2.
Proof.
  vm_compute. split; [reflexivity|]. intros m [Hm|[]]. discriminate.
Qed.

(** C6 (amended): with [verify_access_tier] on and no forcing, if the
    remote reports the blob at the requested tier after a first
    [set_access_tier] call, a second call with the same tier prints a skip
    line, issues no mutating call and leaves the remote storage as the
    first call left it: two calls end in the same state as one. *)
Theorem set_access_tier_second_call_skips {Store : Type} `{ContainerClient Store}
    (cfg : AccessTier.Globals) (p t : string) (s0 s1 : Store) (evs1 : list Event)
    (r1 : Exn + unit) (props : BlobProperties) :
  AccessTier.is_valid_tier t = true -> AccessTier.verify_access_tier cfg = true ->
  AccessTier.force_tier_on_inferred_blobs cfg = false ->
  AccessTier.set_access_tier cfg p t s0 [] = (s1, evs1, r1) ->
  get_blob_properties s1 p = inr props -> blob_tier props = Some t ->
  let '(s2, evs2, r2) := AccessTier.set_access_tier cfg p t s1 [] in
  s2 = s1 /\ r2 = inr tt
  /\ In (EvLog ("Skipping " ++ p ++ ", already at tier " ++ t)) evs2
  /\ no_mutation evs2 = true.
Proof.
  intros Ht Hva Hf _ Hget Htier.
  rewrite (set_access_tier_at_tier_run cfg p t s1 [] props Ht Hva) by (rewrite ?Hf; assumption || reflexivity).
  repeat split.
  - apply in_or_app; right. apply in_or_app; right. simpl. auto.
  - destruct (AccessTier.verify_existence cfg); reflexivity.
Qed.

(** The first call moves the Cool blob to Hot; the second one skips it. *)
Lemma set_access_tier_second_call_skips_witness :
  let s1 := mkSimStore [("a.jpg", at_tier "Hot")] [] in
  let '(s2, evs2, r2) := AccessTier.set_access_tier AccessTier.default_globals "a.jpg" "Hot" s1 [] in
  s2 = s1 /\ r2 = inr tt
  /\ In (EvLog ("Skipping " ++ "a.jpg" ++ ", already at tier " ++ "Hot")) evs2
  /\ no_mutation evs2 = true.
Proof.
  apply (set_access_tier_second_call_skips AccessTier.default_globals "a.jpg" "Hot"
           one_cool_blob (mkSimStore [("a.jpg", at_tier "Hot")] [])
           [EvGetProps "a.jpg"; EvSetTier "Hot" "a.jpg"; EvSleep] (inr tt) (at_tier "Hot"));
    vm_compute; reflexivity.
Defined.

(** C4 (as stated, refuted): with the default settings ([verbose = False])
    a delete call that fails with a server-busy error is caught, but
    nothing is printed: the failure is swallowed silently. *)
Lemma swallowed_failure_counterexample :
  delete_blob_call throttled_blob "a.jpg" = inl busy_error
  /\ DeleteBlobs.delete_blob DeleteBlobs.default_globals "a.jpg" throttled_blob []
     = (throttled_blob, [EvDelete "a.jpg"; EvSleep], inr tt).
Proof. split; reflexivity. Qed.

(** C4 (amended): with the existence check off and a valid tier,
    [set_access_tier] and [delete_blob] return normally whatever their
    remote calls raise, so each consumer goes through every item of its
    block and then calls [task_done]. A failed read of the property check
    ([verify_access_tier]) is always printed; a failed tier change to a
    tier other than ["Archive"], or a failed deletion, is printed
    exactly when [verbose] is set. *)
Theorem item_failures_contained {Store : Type} `{ContainerClient Store}
    (cfg_t : AccessTier.Globals) (cfg_d : DeleteBlobs.Globals) (t : string) :
  AccessTier.verify_existence cfg_t = false -> DeleteBlobs.verify_existence cfg_d = false ->
  AccessTier.is_valid_tier t = true ->
  (forall p, never_raises (AccessTier.set_access_tier cfg_t p t))
  /\ (forall p, never_raises (DeleteBlobs.delete_blob cfg_d p))
  /\ (forall block, never_raises (for_each (fun p => AccessTier.set_access_tier cfg_t p t) block))
  /\ (forall block, never_raises (for_each (DeleteBlobs.delete_blob cfg_d) block))
  /\ (forall block s l, exists s' l',
        AccessTier.consumer_iteration cfg_t t block s l = (s', l' ++ [EvTaskDone], inr tt))
  /\ (forall block s l, exists s' l',
        DeleteBlobs.consumer_iteration cfg_d block s l = (s', l' ++ [EvTaskDone], inr tt))
  /\ (forall p s l e, get_blob_properties s p = inl e ->
        AccessTier.verify_tier cfg_t p t s l
        = (s, l ++ [EvGetProps p;
                    EvLog ("Error verifying access tier for " ++ p ++ ": " ++ exn_msg e)],
           inr false))
  /\ (forall p s l e, String.eqb t "Archive" = false ->
        set_standard_blob_tier_blobs s t p = inl e ->
        AccessTier.change_tier cfg_t p t s l
        = (s, l ++ (if verbose (AccessTier.pipeline cfg_t)
                    then [EvLog ("Setting " ++ p ++ " to " ++ t); EvSetTier t p;
                          EvLog (if str_contains "BlobNotFound" (exn_msg e)
                                 then p ++ " does not exist"
                                 else "Error setting " ++ p ++ " to " ++ t ++ ": " ++ exn_msg e)]
                    else [EvSetTier t p]), inr tt))
  /\ (forall p s l e, DeleteBlobs.execute_deletions cfg_d = true ->
        delete_blob_call s p = inl e ->
        DeleteBlobs.delete_blob cfg_d p s l
        = (s, l ++ (if verbose (DeleteBlobs.pipeline cfg_d)
                    then [EvLog ("Deleting " ++ p); EvDelete p;
                          EvLog (if str_contains "BlobNotFound" (exn_msg e)
                                 then p ++ " does not exist"
                                 else "Error deleting " ++ p ++ ": " ++ exn_msg e)]
                    else [EvDelete p])
                 ++ (if 0 <? DeleteBlobs.sleep_time_after_deletion_ms cfg_d
                     then [EvSleep] else []), inr tt)).
Proof.
  intros Hvt Hvd Ht.
  assert (Hst : forall p, never_raises (AccessTier.set_access_tier cfg_t p t))
    by (intros p; apply nr_set_access_tier; assumption).
  assert (Hdb : forall p, never_raises (DeleteBlobs.delete_blob cfg_d p))
    by (intros p; apply nr_delete_blob; assumption).
  split; [exact Hst|]. split; [exact Hdb|].
  split; [intros block; apply nr_for_each; exact Hst|].
  split; [intros block; apply nr_for_each; exact Hdb|].
  split.
  { intros block. unfold AccessTier.consumer_iteration. apply ends_with_task_done.
    apply nr_try. intros e. apply nr_emit. }
  split.
  { intros block s l. unfold DeleteBlobs.consumer_iteration.
    destruct (nr_when (verbose (DeleteBlobs.pipeline cfg_d)) _ (nr_emit
      (EvLog ("De-queuing " ++ string_of_nat (List.length block) ++ " paths"))) s l)
      as (s1 & l1 & [] & E1).
    unfold bind at 1. rewrite E1.
    apply (ends_with_task_done _ (nr_for_each _ block Hdb)). }
  split.
  { intros p s l e Hget. unfold AccessTier.verify_tier.
    cbv beta iota delta [bind try_except get_props emit ret].
    rewrite Hget. cbv beta iota. rewrite <- app_assoc. reflexivity. }
  split.
  { intros p s l e Harch Hset. unfold AccessTier.change_tier. rewrite Harch.
    cbv beta iota zeta delta [bind try_except set_tier emit ret when].
    destruct (verbose (AccessTier.pipeline cfg_t)); cbv beta iota;
      rewrite Hset; cbv beta iota; [|reflexivity].
    destruct (str_contains _ _); rewrite <- !app_assoc; reflexivity. }
  { intros p s l e Hx Hdel. unfold DeleteBlobs.delete_blob. rewrite Hvd, Hx.
    cbv beta iota zeta delta [bind try_except delete_call emit ret when existence_prologue negb].
    destruct (verbose (DeleteBlobs.pipeline cfg_d)); cbv beta iota;
      rewrite Hdel; cbv beta iota;
      [destruct (str_contains _ _)|];
      (destruct (0 <? DeleteBlobs.sleep_time_after_deletion_ms cfg_d);
       rewrite <- ?app_assoc; rewrite ?app_nil_r; reflexivity). }
Qed.

Lemma item_failures_contained_witness :
  never_raises (AccessTier.set_access_tier AccessTier.default_globals "a.jpg" "Hot")
  /\ DeleteBlobs.delete_blob DeleteBlobs.default_globals "a.jpg" throttled_blob []
     = (throttled_blob, [EvDelete "a.jpg"; EvSleep], inr tt).
Proof.
  destruct (item_failures_contained (Store := SimStore) AccessTier.default_globals
              DeleteBlobs.default_globals "Hot" eq_refl eq_refl eq_refl)
    as (H1 & _ & _ & _ & _ & _ & _ & _ & H9).
  split; [apply H1|].
  apply (H9 "a.jpg" throttled_blob [] busy_error); reflexivity.
Defined.

(** C3 (code bug): with the existence check on, a block whose first blob's
    property read fails with a server-busy error. The delete consumer dies
    with the exception and never calls [task_done] for the block; the
    access-tier consumer calls [task_done] once but never handles the
    block's second blob. *)
Theorem consumer_block_abandoned :
  DeleteBlobs.consumer_iteration existence_delete_globals ["a.jpg"; "b.jpg"]
    two_blobs_first_throttled []
  = (two_blobs_first_throttled, [EvGetProps "a.jpg"], inl busy_error)
  /\ AccessTier.consumer_iteration existence_tier_globals "Cool" ["a.jpg"; "b.jpg"]
       two_blobs_first_throttled []
     = (two_blobs_first_throttled,
        [EvGetProps "a.jpg"; EvLog ("Consumer error: " ++ exn_msg busy_error); EvTaskDone],
        inr tt).
Proof. split; vm_compute; reflexivity. Qed.

(** ** Further lemmas: producer, counter and run *)

Lemma increment_total_app (a b : list PEvent) :
  increment_total (a ++ b) = increment_total a + increment_total b.
Proof. induction a as [|[] a IH]; simpl; rewrite ?IH; lia. Qed.

Lemma increment_total_nonneg (evs : list PEvent) : 0 <= increment_total evs.
Proof. induction evs as [|[] evs IH]; simpl; lia. Qed.

(** The producer increments the counter by the size of each block it puts
    inside the loop, so the increments add up to the items of those
    blocks. *)
Lemma producer_loop_increments (g : PipelineGlobals) (lines : list string) :
  forall i cur,
  increment_total (fst (producer_loop g i lines cur))
  = Z.of_nat (List.length (List.concat (puts (fst (producer_loop g i lines cur))))).
Proof.
  induction lines as [|raw rest IH]; intros i cur; [reflexivity|].
  simpl producer_loop.
  destruct ((0 <? blobs_to_skip g) && (i <? blobs_to_skip g)); [apply IH|].
  destruct (String.length (strip raw) =? 0)%nat; [apply IH|].
  destruct ((0 <? debug_max_files g) && (debug_max_files g <=? _)); [reflexivity|].
  destruct (Z.of_nat (List.length (cur ++ [strip raw])) =? producer_block_size g);
    [|apply IH].
  specialize (IH (i + 1) []).
  destruct (producer_loop g (i + 1) rest []) as [evs fin]. simpl fst in *.
  rewrite increment_total_app, puts_app, puts_verbose_prefix.
  replace (increment_total (if verbose g then [PLog _] else [])) with 0
    by (destruct (verbose g); reflexivity).
  simpl. rewrite IH, !length_app. lia.
Qed.

Lemma wrap_c_int_small (z : Z) : - 2 ^ 31 <= z < 2 ^ 31 -> wrap_c_int z = z.
Proof.
  intros Hz. unfold wrap_c_int. rewrite Z.mod_small; lia.
Qed.

(** Below [2^31] the counter adds up the increments exactly; a progress
    line resets [last_print] to the value, so the value never runs
    [n_print] or more ahead of the last printed one, and each printed line
    stands for at least [n_print] new items. *)
Lemma counter_after_inv (np : Z) (evs : list PEvent) :
  0 < np ->
  forall c, 0 <= last_print c <= val c -> val c - last_print c < np ->
  val c + increment_total evs < 2 ^ 31 ->
  let c' := counter_after np c evs in
  val c' = val c + increment_total evs
  /\ last_print c <= last_print c' <= val c'
  /\ val c' - last_print c' < np
  /\ Z.of_nat (counter_prints np c evs) * np <= last_print c' - last_print c.
Proof.
  intros Hnp. induction evs as [|ev evs IH]; intros c Hlp Hd Hb; simpl.
  - lia.
  - pose proof (increment_total_nonneg evs) as Hnn.
    destruct ev as [m|n|b]; cbn [increment_total counter_after counter_prints] in Hb |- *;
      [apply IH; assumption | | apply IH; assumption].
    unfold counter_increment.
    rewrite wrap_c_int_small by lia.
    destruct (np <=? val c + Z.of_nat n - last_print c) eqn:Hp.
    + apply Z.leb_le in Hp.
      destruct (IH (mkCounter (val c + Z.of_nat n) (total c) (val c + Z.of_nat n)))
        as (H1 & H2 & H3 & H4); cbn [fst val last_print total] in *; [repeat split; lia | lia ..].
    + apply Z.leb_gt in Hp.
      destruct (IH (mkCounter (val c + Z.of_nat n) (total c) (last_print c)))
        as (H1 & H2 & H3 & H4); cbn [fst val last_print total] in *; [repeat split; lia | lia ..].
Qed.

(** With a positive debug cap [d], the loop hands on the stripped
    non-blank lines at line index [K <= i < K + d], [K] the skip-count. *)
Lemma producer_loop_items_capped (g : PipelineGlobals) (lines : list string) :
  0 < debug_max_files g ->
  let K := Z.max 0 (blobs_to_skip g) in
  forall i cur, 0 <= i ->
  List.concat (puts (fst (producer_loop g i lines cur))) ++ snd (producer_loop g i lines cur)
  = cur ++ nonblank_items
             (firstn (Z.to_nat (K + debug_max_files g - Z.max i K))
                (skipn (Z.to_nat (K - i)) lines)).
Proof.
  intros Hd K. induction lines as [|raw rest IH]; intros i cur Hi.
  - rewrite skipn_nil, firstn_nil. simpl. rewrite !app_nil_r. reflexivity.
  - simpl producer_loop.
    destruct ((0 <? blobs_to_skip g) && (i <? blobs_to_skip g)) eqn:Hskip.
    + apply andb_true_iff in Hskip as [H1 H2].
      apply Z.ltb_lt in H1; apply Z.ltb_lt in H2.
      rewrite IH by lia.
      replace (Z.to_nat (K - i)) with (S (Z.to_nat (K - (i + 1)))) by (unfold K; lia).
      replace (Z.max i K) with (Z.max (i + 1) K) by (unfold K; lia).
      reflexivity.
    + assert (HK : K <= i).
      { unfold K. apply andb_false_iff in Hskip as [H|H]; apply Z.ltb_ge in H; lia. }
      assert (Hn : (if 0 <? blobs_to_skip g then i - blobs_to_skip g else i) = i - K).
      { unfold K. destruct (Z.ltb_spec 0 (blobs_to_skip g)); lia. }
      replace (Z.to_nat (K - i)) with 0%nat by lia.
      replace (Z.to_nat (K - (i + 1))) with 0%nat in IH by lia.
      replace (Z.max i K) with i by lia.
      simpl skipn. rewrite Hn.
      destruct (Z.to_nat (K + debug_max_files g - i)) as [|m] eqn:Hm.
      * (* past the cap: nothing more is handed on *)
        simpl firstn. unfold nonblank_items at 1. simpl. rewrite app_nil_r.
        destruct (String.length (strip raw) =? 0)%nat.
        -- specialize (IH (i + 1) cur ltac:(lia)).
           replace (Z.to_nat (K + debug_max_files g - Z.max (i + 1) K)) with 0%nat in IH by lia.
           replace (Z.to_nat (K - (i + 1))) with 0%nat in IH by lia.
           rewrite IH. simpl. unfold nonblank_items. simpl. apply app_nil_r.
        -- replace ((0 <? debug_max_files g) && (debug_max_files g <=? i - K)) with true
             by (symmetry; apply andb_true_iff; split; apply Z.ltb_lt || apply Z.leb_le; lia).
           reflexivity.
      * replace m with (Z.to_nat (K + debug_max_files g - Z.max (i + 1) K)) in * by lia.
        simpl firstn. unfold nonblank_items at 1. simpl map. simpl filter.
        destruct (String.length (strip raw) =? 0)%nat eqn:Hb; simpl negb; cbv iota.
        -- rewrite IH by lia. replace (Z.to_nat (K - (i + 1))) with 0%nat by lia. reflexivity.
        -- replace ((0 <? debug_max_files g) && (debug_max_files g <=? i - K)) with false
             by (symmetry; apply andb_false_iff; right; apply Z.leb_gt; lia).
           destruct (Z.of_nat (List.length (cur ++ [strip raw])) =? producer_block_size g).
           ++ pose proof (IH (i + 1) [] ltac:(lia)) as IH1.
              replace (Z.to_nat (K - (i + 1))) with 0%nat in IH1 by lia.
              destruct (producer_loop g (i + 1) rest []) as [evs fin] eqn:Hl.
              simpl fst in *; simpl snd in *.
              rewrite puts_app, puts_verbose_prefix. simpl.
              rewrite <- app_assoc, IH1. rewrite <- app_assoc. reflexivity.
           ++ rewrite IH by lia. replace (Z.to_nat (K - (i + 1))) with 0%nat by lia.
              rewrite <- app_assoc. reflexivity.
Qed.

Section RunProgress.

Variable g : PipelineGlobals.
Variable k : ItemFailure.

(** Consumers are never created: idle plus busy plus dead is [n_threads]. *)
Lemma run_workers_step (st st' : RunState) (N : nat) :
  run_step g k st st' ->
  (idle_workers st + List.length (busy_workers st) + dead_workers st = N)%nat ->
  (idle_workers st' + List.length (busy_workers st') + dead_workers st' = N)%nat.
Proof.
  intros Hs. inversion Hs; subst; cbn [idle_workers busy_workers dead_workers];
    rewrite ?length_app; simpl; lia.
Qed.

Lemma run_workers_reachable (blocks : list (list string)) (st : RunState) :
  run_reachable g k blocks st ->
  (idle_workers st + List.length (busy_workers st) + dead_workers st
   = Z.to_nat (n_threads g))%nat.
Proof.
  unfold run_reachable.
  assert (Hgen : forall x y, clos_refl_trans_1n _ (run_step g k) x y ->
            (idle_workers x + List.length (busy_workers x) + dead_workers x
             = Z.to_nat (n_threads g))%nat ->
            (idle_workers y + List.length (busy_workers y) + dead_workers y
             = Z.to_nat (n_threads g))%nat).
  { induction 1 as [x|x y z Hxy _ IH]; intros Hx; [exact Hx|].
    apply IH. exact (run_workers_step x y _ Hxy Hx). }
  intros H. apply (Hgen _ _ H). simpl. lia.
Qed.

Lemma run_reachable_step (blocks : list (list string)) (st st' : RunState) :
  run_reachable g k blocks st -> run_step g k st st' -> run_reachable g k blocks st'.
Proof.
  unfold run_reachable. intros Hr Hs.
  apply clos_rt_rt1n. eapply rt_trans; [apply clos_rt1n_rt; exact Hr | apply rt_step; exact Hs].
Qed.

Lemma run_reachable_trans (blocks : list (list string)) (st st' : RunState) :
  run_reachable g k blocks st -> clos_refl_trans_1n _ (run_step g k) st st' ->
  run_reachable g k blocks st'.
Proof.
  unfold run_reachable. intros Hr Hs.
  apply clos_rt_rt1n. eapply rt_trans; apply clos_rt1n_rt; eassumption.
Qed.

Lemma list_sum_map_app (f : list string -> nat) (a b : list (list string)) :
  list_sum (map f (a ++ b)) = (list_sum (map f a) + list_sum (map f b))%nat.
Proof. rewrite map_app. apply list_sum_app. Qed.

(** Every step decreases the measure, so no run is infinite. *)
Lemma run_step_measure (st st' : RunState) :
  run_step g k st st' -> (run_measure st' < run_measure st)%nat.
Proof.
  intros Hs. inversion Hs; subst; unfold run_measure;
    cbn [pending queue busy_workers]; rewrite ?list_sum_map_app; simpl; lia.
Qed.

Lemma run_step_acc (st : RunState) : Acc (fun y x => run_step g k x y) st.
Proof.
  induction st as [st IH] using (well_founded_induction (well_founded_ltof _ run_measure)).
  constructor. intros st' Hs. apply IH. unfold ltof. apply run_step_measure. exact Hs.
Qed.

(** A busy consumer can always move: hand on its next item, or call
    [task_done] on its exhausted block. *)
Lemma busy_can_step (p q : list (list string)) (i : nat) (b : list string)
    (bs : list (list string)) (u : nat) (d a : list string) (w : nat) :
  exists st', run_step g k (mkRunState p q i (b :: bs) u d a w) st'.
Proof.
  destruct b as [|x r].
  - eexists. exact (step_task_done g k [] bs p q i u d a w).
  - eexists. exact (step_item g k [] x r bs p q i u d a w).
Qed.

(** With a consumer, and per-item calls that never kill one, a
    reachable state is finished or can step. *)
Lemma run_progress (blocks : list (list string)) (st : RunState) :
  1 <= n_threads g -> k <> KillsConsumer -> run_reachable g k blocks st ->
  run_finished st \/ exists st', run_step g k st st'.
Proof.
  intros Hn Hk Hr.
  pose proof (run_workers_reachable blocks st Hr) as Hw.
  destruct (run_inv_reachable g k blocks st Hr) as (_ & Hu & Hq & _ & Hd).
  specialize (Hd Hk).
  destruct st as [p q i bs u d a w]; cbn [pending queue idle_workers busy_workers
    unfinished_tasks dispatched dead_workers] in *.
  subst w.
  destruct bs as [|b bs]; [|right; apply busy_can_step].
  simpl in Hw. destruct i as [|i]; [lia|].
  destruct p as [|b rest].
  - destruct q as [|b q].
    + left. simpl in Hu. split; simpl; [reflexivity | lia].
    + right. eexists. apply step_get.
  - right. destruct (can_put (max_queue_size g) (List.length q)) eqn:Hc.
    + eexists. apply step_put. exact Hc.
    + destruct q as [|b' q].
      * unfold can_put in Hc. simpl in Hc. apply orb_false_iff in Hc as [H1 H2].
        apply Z.leb_gt in H1. apply Z.ltb_ge in H2. lia.
      * eexists. apply step_get.
Qed.

(** Without consumers nothing is taken off the queue: every block is
    still pending or queued. *)
Lemma run_no_workers_reachable (blocks : list (list string)) (st : RunState) :
  n_threads g <= 0 -> run_reachable g k blocks st ->
  idle_workers st = 0%nat /\ busy_workers st = []
  /\ (List.length (pending st) + List.length (queue st) = List.length blocks)%nat.
Proof.
  intros Hn. unfold run_reachable.
  assert (Hgen : forall x y, clos_refl_trans_1n _ (run_step g k) x y ->
            idle_workers x = 0%nat /\ busy_workers x = []
            /\ (List.length (pending x) + List.length (queue x) = List.length blocks)%nat ->
            idle_workers y = 0%nat /\ busy_workers y = []
            /\ (List.length (pending y) + List.length (queue y) = List.length blocks)%nat).
  { induction 1 as [x|x y z Hxy _ IH]; intros Hx; [exact Hx|].
    apply IH. destruct Hx as (Hi & Hb & Hl).
    inversion Hxy; subst; cbn [idle_workers busy_workers pending queue] in *.
    - repeat split; try assumption. rewrite length_app in *. simpl in *. lia.
    - discriminate.
    - destruct bs1; discriminate.
    - destruct bs1; discriminate.
    - destruct bs1; discriminate.
    - destruct bs1; discriminate. }
  intros H. apply (Hgen _ _ H). simpl. split; [lia | split; [reflexivity | lia]].
Qed.


End RunProgress.

(** ** Further lemmas: what the per-item code can emit *)

Section Emits.

Context {Store : Type} `{ContainerClient Store}.

Local Abbreviation MS := (@M Store).

Variable f : Event -> bool.

Lemma count_ev_app (a b : list Event) :
  count_ev f (a ++ b) = (count_ev f a + count_ev f b)%nat.
Proof. unfold count_ev. rewrite filter_app, length_app. reflexivity. Qed.

Lemma em_ret {A} (k : nat) (a : A) : emits_at_most f k (ret (Store := Store) a).
Proof. intros s l. exists s, [], (inr a). rewrite app_nil_r. split; [reflexivity | cbn; lia]. Qed.

Lemma em_raise {A} (k : nat) (e : Exn) : emits_at_most f k (raise (Store := Store) (A := A) e).
Proof. intros s l. exists s, [], (inl e). rewrite app_nil_r. split; [reflexivity | cbn; lia]. Qed.

Lemma em_emit0 (e : Event) : f e = false -> emits_at_most f 0 (emit (Store := Store) e).
Proof.
  intros He s l. exists s, [e], (inr tt). split; [reflexivity|].
  unfold count_ev. simpl. rewrite He. reflexivity.
Qed.

Lemma em_emit1 (e : Event) : emits_at_most f 1 (emit (Store := Store) e).
Proof.
  intros s l. exists s, [e], (inr tt). split; [reflexivity|].
  unfold count_ev. simpl. destruct (f e); simpl; lia.
Qed.

Lemma em_get_props0 (p : string) : f (EvGetProps p) = false -> emits_at_most f 0 (get_props p).
Proof.
  intros He s l. exists s, [EvGetProps p], (get_blob_properties s p). split; [reflexivity|].
  unfold count_ev. simpl. rewrite He. reflexivity.
Qed.

Lemma em_get_props1 (p : string) : emits_at_most f 1 (get_props p).
Proof.
  intros s l. exists s, [EvGetProps p], (get_blob_properties s p). split; [reflexivity|].
  unfold count_ev. simpl. destruct (f _); simpl; lia.
Qed.

Lemma em_set_tier0 (t p : string) : f (EvSetTier t p) = false -> emits_at_most f 0 (set_tier t p).
Proof.
  intros He s l. unfold set_tier.
  destruct (set_standard_blob_tier_blobs s t p) as [e|s'];
    eexists _, [EvSetTier t p], _; (split; [reflexivity|]);
    unfold count_ev; simpl; rewrite He; reflexivity.
Qed.

Lemma em_set_tier1 (t p : string) : emits_at_most f 1 (set_tier t p).
Proof.
  intros s l. unfold set_tier.
  destruct (set_standard_blob_tier_blobs s t p) as [e|s'];
    eexists _, [EvSetTier t p], _; (split; [reflexivity|]);
    unfold count_ev; simpl; destruct (f _); simpl; lia.
Qed.

Lemma em_delete_call0 (p : string) : f (EvDelete p) = false -> emits_at_most f 0 (delete_call p).
Proof.
  intros He s l. unfold delete_call.
  destruct (delete_blob_call s p) as [e|s'];
    eexists _, [EvDelete p], _; (split; [reflexivity|]);
    unfold count_ev; simpl; rewrite He; reflexivity.
Qed.

Lemma em_delete_call1 (p : string) : emits_at_most f 1 (delete_call p).
Proof.
  intros s l. unfold delete_call.
  destruct (delete_blob_call s p) as [e|s'];
    eexists _, [EvDelete p], _; (split; [reflexivity|]);
    unfold count_ev; simpl; destruct (f _); simpl; lia.
Qed.

Lemma em_bind {A B} (k1 k2 : nat) (m : MS A) (c : A -> MS B) :
  emits_at_most f k1 m -> (forall a, emits_at_most f k2 (c a)) ->
  emits_at_most f (k1 + k2) (bind m c).
Proof.
  intros Hm Hc s l. destruct (Hm s l) as (s1 & l1 & r1 & E1 & C1).
  unfold bind. rewrite E1. destruct r1 as [e|a].
  - exists s1, l1, (inl e). split; [reflexivity | lia].
  - destruct (Hc a s1 (l ++ l1)) as (s2 & l2 & r2 & E2 & C2). rewrite E2.
    exists s2, (l1 ++ l2), r2. rewrite app_assoc. split; [reflexivity|].
    rewrite count_ev_app. lia.
Qed.

Lemma em_try {A} (k1 k2 : nat) (m : MS A) (h : Exn -> MS A) :
  emits_at_most f k1 m -> (forall e, emits_at_most f k2 (h e)) ->
  emits_at_most f (k1 + k2) (try_except m h).
Proof.
  intros Hm Hh s l. destruct (Hm s l) as (s1 & l1 & r1 & E1 & C1).
  unfold try_except. rewrite E1. destruct r1 as [e|a].
  - destruct (Hh e s1 (l ++ l1)) as (s2 & l2 & r2 & E2 & C2). rewrite E2.
    exists s2, (l1 ++ l2), r2. rewrite app_assoc. split; [reflexivity|].
    rewrite count_ev_app. lia.
  - exists s1, l1, (inr a). split; [reflexivity | lia].
Qed.

Lemma em_bind_l0 {A B} (k : nat) (m : MS A) (c : A -> MS B) :
  emits_at_most f 0 m -> (forall a, emits_at_most f k (c a)) ->
  emits_at_most f k (bind m c).
Proof. apply (em_bind 0 k). Qed.

Lemma em_bind_r0 {A B} (k : nat) (m : MS A) (c : A -> MS B) :
  emits_at_most f k m -> (forall a, emits_at_most f 0 (c a)) ->
  emits_at_most f k (bind m c).
Proof. intros Hm Hc. rewrite <- (Nat.add_0_r k). apply em_bind; assumption. Qed.

Lemma em_try_l0 {A} (k : nat) (m : MS A) (h : Exn -> MS A) :
  emits_at_most f 0 m -> (forall e, emits_at_most f k (h e)) ->
  emits_at_most f k (try_except m h).
Proof. apply (em_try 0 k). Qed.

Lemma em_try_r0 {A} (k : nat) (m : MS A) (h : Exn -> MS A) :
  emits_at_most f k m -> (forall e, emits_at_most f 0 (h e)) ->
  emits_at_most f k (try_except m h).
Proof. intros Hm Hh. rewrite <- (Nat.add_0_r k). apply em_try; assumption. Qed.

Lemma em_when (k : nat) (b : bool) (m : MS unit) :
  emits_at_most f k m -> emits_at_most f k (when b m).
Proof. intros Hm. destruct b; [exact Hm | apply em_ret]. Qed.

Lemma em_for_each (g : string -> MS unit) (xs : list string) :
  (forall x, emits_at_most f 0 (g x)) -> emits_at_most f 0 (for_each g xs).
Proof.
  intros Hg. induction xs as [|x xs IH]; simpl; [apply em_ret|].
  apply em_bind_l0; [apply Hg | intros; exact IH].
Qed.

Lemma em_consumer_loop (it : list string -> MS unit) (bs : list (list string)) :
  (forall b, emits_at_most f 0 (it b)) -> emits_at_most f 0 (consumer_loop it bs).
Proof.
  intros Hit. induction bs as [|b bs IH]; simpl; [apply em_ret|].
  apply em_bind_l0; [apply Hit | intros; exact IH].
Qed.

(** An action that returns normally and emits nothing [f] accepts. *)
Lemma ae_of_em {A} (m : MS A) :
  never_raises m -> emits_at_most f 0 m -> adds_exactly f 0 m.
Proof.
  intros Hn Hm s l. destruct (Hm s l) as (s1 & l1 & r1 & E1 & C1).
  destruct (Hn s l) as (s2 & l2 & a & E2). rewrite E1 in E2.
  injection E2 as _ _ Hr. exists s1, l1, a. rewrite E1, Hr. split; [reflexivity | lia].
Qed.

Lemma ae_emit (e : Event) :
  adds_exactly f (if f e then 1 else 0) (emit (Store := Store) e).
Proof.
  intros s l. exists s, [e], tt. split; [reflexivity|].
  unfold count_ev. simpl. destruct (f e); reflexivity.
Qed.

Lemma ae_bind {A B} (k1 k2 : nat) (m : MS A) (c : A -> MS B) :
  adds_exactly f k1 m -> (forall a, adds_exactly f k2 (c a)) ->
  adds_exactly f (k1 + k2) (bind m c).
Proof.
  intros Hm Hc s l. destruct (Hm s l) as (s1 & l1 & a1 & E1 & C1).
  unfold bind. rewrite E1.
  destruct (Hc a1 s1 (l ++ l1)) as (s2 & l2 & a2 & E2 & C2). rewrite E2.
  exists s2, (l1 ++ l2), a2. rewrite app_assoc. split; [reflexivity|].
  rewrite count_ev_app. lia.
Qed.

(** A [try] whose body emits nothing [f] accepts, with a handler that
    returns normally and emits nothing [f] accepts. *)
Lemma ae_try0 {A} (m : MS A) (h : Exn -> MS A) :
  emits_at_most f 0 m -> (forall e, adds_exactly f 0 (h e)) ->
  adds_exactly f 0 (try_except m h).
Proof.
  intros Hm Hh s l. destruct (Hm s l) as (s1 & l1 & r1 & E1 & C1).
  unfold try_except. rewrite E1. destruct r1 as [e|a].
  - destruct (Hh e s1 (l ++ l1)) as (s2 & l2 & a2 & E2 & C2). rewrite E2.
    exists s2, (l1 ++ l2), a2. rewrite app_assoc. split; [reflexivity|].
    rewrite count_ev_app. lia.
  - exists s1, l1, a. split; [reflexivity | lia].
Qed.

Lemma ae_consumer_loop (it : list string -> MS unit) (bs : list (list string)) :
  (forall b, adds_exactly f 1 (it b)) ->
  adds_exactly f (List.length bs) (consumer_loop it bs).
Proof.
  intros Hit. induction bs as [|b bs IH]; simpl.
  - intros s l. exists s, [], tt. rewrite app_nil_r. split; reflexivity.
  - apply (ae_bind 1 (List.length bs)); [apply Hit | intros; exact IH].
Qed.

End Emits.

(** Closes a goal [emits_at_most f k m] by following the structure of
    [m]; the side conditions [f e = false] are decided by evaluation. *)
Ltac ev_false := cbn; rewrite ?String.eqb_refl; reflexivity.

Ltac em_solve :=
  cbv beta zeta;
  lazymatch goal with
  | |- emits_at_most _ _ (bind _ _) =>
      first [ apply em_bind_l0; [solve [em_solve] | intro; solve [em_solve]]
            | apply em_bind_r0; [solve [em_solve] | intro; solve [em_solve]] ]
  | |- emits_at_most _ _ (try_except _ _) =>
      first [ apply em_try_l0; [solve [em_solve] | intro; solve [em_solve]]
            | apply em_try_r0; [solve [em_solve] | intro; solve [em_solve]] ]
  | |- emits_at_most _ _ (ret _) => apply em_ret
  | |- emits_at_most _ _ (raise _) => apply em_raise
  | |- emits_at_most _ _ (emit _) =>
      first [apply em_emit0; ev_false | apply em_emit1]
  | |- emits_at_most _ _ (get_props _) =>
      first [apply em_get_props0; ev_false | apply em_get_props1]
  | |- emits_at_most _ _ (set_tier _ _) =>
      first [apply em_set_tier0; ev_false | apply em_set_tier1]
  | |- emits_at_most _ _ (delete_call _) =>
      first [apply em_delete_call0; ev_false | apply em_delete_call1]
  | |- emits_at_most _ _ (when _ _) => apply em_when; solve [em_solve]
  | |- emits_at_most _ _ (if ?b then _ else _) => destruct b; solve [em_solve]
  | |- emits_at_most _ _ (match ?x with _ => _ end) => destruct x; solve [em_solve]
  | |- emits_at_most _ _ (blob_exists _) => unfold blob_exists; solve [em_solve]
  | |- emits_at_most _ _ (existence_prologue _ _) =>
      unfold existence_prologue; solve [em_solve]
  | |- emits_at_most _ _ (AccessTier.verify_tier _ _ _) =>
      unfold AccessTier.verify_tier; solve [em_solve]
  | |- emits_at_most _ _ (AccessTier.change_tier _ _ _) =>
      unfold AccessTier.change_tier; solve [em_solve]
  | |- emits_at_most _ _ (AccessTier.set_access_tier _ _ _) =>
      unfold AccessTier.set_access_tier; solve [em_solve]
  | |- emits_at_most _ _ (DeleteBlobs.delete_blob _ _) =>
      unfold DeleteBlobs.delete_blob; solve [em_solve]
  | |- emits_at_most _ 0 (for_each _ _) => apply em_for_each; intro; solve [em_solve]
  end.

Lemma ae_ret {Store : Type} {A : Type} (f : Event -> bool) (a : A) :
  adds_exactly f 0 (ret (Store := Store) a).
Proof. intros s l. exists s, [], a. rewrite app_nil_r. split; reflexivity. Qed.

Lemma ae_when0 {Store : Type} (f : Event -> bool) (b : bool) (m : @M Store unit) :
  adds_exactly f 0 m -> adds_exactly f 0 (when b m).
Proof. intros Hm. destruct b; [exact Hm | apply ae_ret]. Qed.

Lemma ro_for_each {Store : Type} `{ContainerClient Store} (g : string -> @M Store unit)
    (xs : list string) :
  (forall x, read_only (g x)) -> read_only (for_each g xs).
Proof.
  intros Hg. induction xs as [|x xs IH]; simpl; [apply ro_ret|].
  apply ro_bind; [apply Hg | intros; exact IH].
Qed.

Lemma ro_consumer_loop {Store : Type} `{ContainerClient Store}
    (it : list string -> @M Store unit) (bs : list (list string)) :
  (forall b, read_only (it b)) -> read_only (consumer_loop it bs).
Proof.
  intros Hit. induction bs as [|b bs IH]; simpl; [apply ro_ret|].
  apply ro_bind; [apply Hit | intros; exact IH].
Qed.

(** An invalid tier fails the [assert] before anything else. *)
Lemma set_access_tier_invalid {Store : Type} `{ContainerClient Store}
    (cfg : AccessTier.Globals) (p t : string) :
  AccessTier.is_valid_tier t = false ->
  AccessTier.set_access_tier cfg p t = raise (mkExn AssertionError "").
Proof. intros Ht. unfold AccessTier.set_access_tier. rewrite Ht. reflexivity. Qed.

(** The property check of [verify_access_tier] when the read fails,
    yields no valid tier, or finds the requested tier with forcing on (the
    lookup of ['tier_inferred'] raises): the error is printed and the
    operation goes on. *)
Lemma verify_tier_failure {Store : Type} `{ContainerClient Store}
    (cfg : AccessTier.Globals) (p t : string) (s : Store) (l : list Event) (e : Exn) :
  get_blob_properties s p = inl e
  \/ (exists props, get_blob_properties s p = inr props /\ blob_tier props = None
       /\ e = mkExn AssertionError "Error retrieving blob tier; is this a GPv1 storage account?")
  \/ (exists props x, get_blob_properties s p = inr props /\ blob_tier props = Some x
       /\ AccessTier.is_valid_tier x = false
       /\ e = mkExn AssertionError ("Unrecognized tier " ++ x ++ " for " ++ p))
  \/ (exists props, get_blob_properties s p = inr props /\ blob_tier props = Some t
       /\ AccessTier.is_valid_tier t = true
       /\ AccessTier.force_tier_on_inferred_blobs cfg = true
       /\ e = mkExn KeyError "'tier_inferred'") ->
  AccessTier.verify_tier cfg p t s l
  = (s, l ++ [EvGetProps p;
              EvLog ("Error verifying access tier for " ++ p ++ ": " ++ exn_msg e)], inr false).
Proof.
  unfold AccessTier.verify_tier.
  cbv beta iota delta [bind try_except get_props emit ret raise].
  intros [Hg | [(props & Hg & Ht & ->) | [(props & x & Hg & Ht & Hx & ->)
                                         | (props & Hg & Ht & Hx & Hf & ->)]]];
    rewrite Hg; cbv beta iota; [| rewrite Ht | rewrite Ht, Hx | rewrite Ht, Hx, String.eqb_refl, Hf];
    cbv beta iota delta [negb]; rewrite <- ?app_assoc; reflexivity.
Qed.

Lemma counter_after_val (np : Z) (evs : list PEvent) :
  forall c, 0 <= val c -> val c + increment_total evs < 2 ^ 31 ->
  val (counter_after np c evs) = val c + increment_total evs.
Proof.
  induction evs as [|ev evs IH]; intros c H0 Hb; cbn [counter_after increment_total] in *.
  - lia.
  - pose proof (increment_total_nonneg evs).
    destruct ev as [m|n|b]; try (apply IH; assumption).
    unfold counter_increment. rewrite wrap_c_int_small by lia.
    destruct (np <=? _); rewrite IH; cbn [fst val]; lia.
Qed.

(** * Further properties of the code *)



(** X2: [Counter.increment] from [Counter(total)], over increments adding
    up to less than [2^31] and a positive [n_print]: the value is the sum
    of the increments, the value is less than [n_print] ahead of the last
    printed one, and the number of progress lines printed times [n_print]
    is at most the last printed value, so at most [value / n_print] lines
    are printed. *)
Theorem counter_progress_lines (np tot : Z) (evs : list PEvent) :
  0 < np -> increment_total evs < 2 ^ 31 ->
  let c := counter_after np (new_counter tot) evs in
  val c = increment_total evs
  /\ 0 <= val c - last_print c < np
  /\ Z.of_nat (counter_prints np (new_counter tot) evs) * np <= last_print c <= val c.
Proof.
  intros Hnp Hb c.
  destruct (counter_after_inv np evs Hnp (new_counter tot)) as (H1 & H2 & H3 & H4);
    cbn [val last_print new_counter] in *; try lia.
  fold c in H1, H2, H3, H4. repeat split; lia.
Qed.

Lemma counter_progress_lines_witness :
  let c := counter_after 2 (new_counter (-1)) increments_ex in
  val c = 5 /\ 0 <= val c - last_print c < 2
  /\ Z.of_nat (counter_prints 2 (new_counter (-1)) increments_ex) * 2 <= last_print c <= val c.
Proof.
  pose proof (counter_progress_lines 2 (-1) increments_ex ltac:(lia)
                ltac:(vm_compute; reflexivity)) as H.
  exact H.
Defined.

(** X3: with the debug cap disabled, a positive block size and fewer than
    [2^31] items, the counter ends at the number of items in full blocks,
    [B * (n / B)] for [n] items and block size [B]; the items put on the
    queue exceed it by [n mod B], the size of the final block. *)
Theorem final_counter_full_blocks (g : PipelineGlobals) (fs : FileSystem) (f : string)
    (lines : list string) :
  debug_max_files g <= 0 -> 0 < producer_block_size g -> fs f = Some lines ->
  let n := List.length (nonblank_items (skipn (Z.to_nat (blobs_to_skip g)) lines)) in
  Z.of_nat n < 2 ^ 31 ->
  final_counter_value g fs f
  = producer_block_size g * Z.of_nat (n / Z.to_nat (producer_block_size g))
  /\ Z.of_nat (items_queued g fs f)
     = final_counter_value g fs f + Z.of_nat (n mod Z.to_nat (producer_block_size g)).
Proof.
  intros Hcap HB Hf n Hn.
  set (Bn := Z.to_nat (producer_block_size g)).
  pose proof (producer_loop_items g Hcap lines 0 [] ltac:(lia)) as Hitems.
  rewrite Z.sub_0_r in Hitems. simpl app in Hitems.
  destruct (producer_loop_sizes g Hcap lines HB 0 [] ltac:(simpl; lia)) as [Hfull Hfin].
  pose proof (producer_loop_increments g lines 0 []) as Hinc.
  destruct (producer_loop g 0 lines []) as [evs fin] eqn:Hl. simpl fst in *; simpl snd in *.
  assert (HF : Forall (fun b => List.length b = Bn) (puts evs)).
  { eapply Forall_impl; [|exact Hfull]. intros b Hb. cbv beta in Hb. unfold Bn. lia. }
  pose proof (length_concat_uniform Bn (puts evs) HF) as Hc.
  assert (Hlen : n = (Bn * List.length (puts evs) + List.length fin)%nat).
  { unfold n. rewrite <- Hitems, length_app, Hc. lia. }
  assert (HfinB : (List.length fin < Bn)%nat) by (unfold Bn; lia).
  assert (Hdiv : (n / Bn = List.length (puts evs))%nat)
    by (symmetry; apply (Nat.div_unique _ _ _ _ HfinB Hlen)).
  assert (Hmod : (n mod Bn = List.length fin)%nat)
    by (symmetry; apply (Nat.mod_unique _ _ _ _ HfinB Hlen)).
  assert (Hval : final_counter_value g fs f = Z.of_nat (List.length (List.concat (puts evs)))).
  { unfold final_counter_value, producer_func. rewrite Hf, Hl. simpl fst.
    rewrite counter_after_val; cbn [val new_counter].
    - rewrite increment_total_app, Hinc. simpl. lia.
    - lia.
    - rewrite increment_total_app, Hinc. simpl. rewrite Hc in *. lia. }
  rewrite Hdiv, Hmod, Hval, Hc. split.
  - unfold Bn. lia.
  - unfold items_queued. rewrite (produced_blocks_eq g fs f lines Hf), Hl. simpl.
    rewrite List.concat_app, length_app. simpl. rewrite app_nil_r, Hc. lia.
Qed.

Lemma final_counter_full_blocks_witness :
  final_counter_value (module_globals 2 2) (fs_of "in.txt" five_lines) "in.txt" = 2 * 2
  /\ Z.of_nat (items_queued (module_globals 2 2) (fs_of "in.txt" five_lines) "in.txt")
     = final_counter_value (module_globals 2 2) (fs_of "in.txt" five_lines) "in.txt" + 1.
Proof.
  exact (final_counter_full_blocks (module_globals 2 2) (fs_of "in.txt" five_lines) "in.txt"
           five_lines ltac:(simpl; lia) ltac:(simpl; lia) eq_refl ltac:(vm_compute; reflexivity)).
Defined.

(** X4: with a positive debug cap [d] and skip-count [k], the items the
    producer puts on the queue are, in order, the stripped non-blank lines
    at line index [k <= i < k + d]: the cap counts lines after the skipped
    ones, blank or not. *)
Theorem producer_debug_cap (g : PipelineGlobals) (fs : FileSystem) (f : string)
    (lines : list string) :
  0 < debug_max_files g -> fs f = Some lines ->
  List.concat (produced_blocks g fs f)
  = nonblank_items (firstn (Z.to_nat (debug_max_files g))
                      (skipn (Z.to_nat (blobs_to_skip g)) lines)).
Proof.
  intros Hd Hf. rewrite (produced_blocks_eq g fs f lines Hf).
  rewrite List.concat_app. simpl. rewrite app_nil_r.
  pose proof (producer_loop_items_capped g lines Hd 0 [] ltac:(lia)) as H.
  simpl app in H. rewrite H.
  replace (Z.max 0 (Z.max 0 (blobs_to_skip g))) with (Z.max 0 (blobs_to_skip g)) by lia.
  replace (Z.max 0 (blobs_to_skip g) + debug_max_files g - Z.max 0 (blobs_to_skip g))
    with (debug_max_files g) by lia.
  replace (Z.to_nat (Z.max 0 (blobs_to_skip g) - 0)) with (Z.to_nat (blobs_to_skip g)) by lia.
  reflexivity.
Qed.

Lemma producer_debug_cap_witness :
  List.concat (produced_blocks cap_globals (fs_of "in.txt" cap_lines) "in.txt") = ["a.jpg"].
Proof.
  rewrite (producer_debug_cap cap_globals (fs_of "in.txt" cap_lines) "in.txt" cap_lines
             ltac:(simpl; lia) eq_refl).
  vm_compute. reflexivity.
Defined.

(** X5: with at least one consumer, and per-item calls that never kill
    a consumer (every configuration of the access-tier script, and the
    deletion script with the existence check off), the run never
    deadlocks: every reachable state is finished ([producer.join()] and
    [q.join()] return) or can take a step; no run is infinite; every state
    a run gets stuck in is finished; and from every reachable state some
    run reaches a finished state. *)
Theorem run_completes (g : PipelineGlobals) (k : ItemFailure) (blocks : list (list string))
    (st : RunState) :
  1 <= n_threads g -> k <> KillsConsumer -> run_reachable g k blocks st ->
  (run_finished st \/ exists st', run_step g k st st')
  /\ Acc (fun y x => run_step g k x y) st
  /\ (forall st', clos_refl_trans_1n _ (run_step g k) st st' ->
        (forall st'', ~ run_step g k st' st'') -> run_finished st')
  /\ exists st', clos_refl_trans_1n _ (run_step g k) st st' /\ run_finished st'.
Proof.
  intros Hn Hk Hr. split; [apply (run_progress g k blocks st Hn Hk Hr)|].
  split; [apply run_step_acc|].
  split.
  { intros st' Hrt Hstuck.
    destruct (run_progress g k blocks st' Hn Hk (run_reachable_trans g k blocks st st' Hr Hrt))
      as [Hf | [st'' Hs]]; [exact Hf | destruct (Hstuck st'' Hs)]. }
  revert Hr.
  induction st as [st IH] using (well_founded_induction (well_founded_ltof _ run_measure)).
  intros Hr. destruct (run_progress g k blocks st Hn Hk Hr) as [Hf | [st' Hs]].
  - exists st. split; [apply Relation_Operators.rt1n_refl | exact Hf].
  - destruct (IH st' (run_step_measure g k st st' Hs) (run_reachable_step g k blocks st st' Hr Hs))
      as (st'' & Hrt & Hf).
    exists st''. split; [eapply Relation_Operators.rt1n_trans; eassumption | exact Hf].
Qed.

Lemma run_completes_witness :
  exists st', clos_refl_trans_1n _ (run_step skip_globals AbandonsBlock)
                (run_init skip_globals
                   (produced_blocks skip_globals (fs_of "in.txt" skip_lines) "in.txt")) st'
              /\ run_finished st'.
Proof.
  apply (run_completes skip_globals AbandonsBlock
           (produced_blocks skip_globals (fs_of "in.txt" skip_lines) "in.txt")
           (run_init skip_globals
              (produced_blocks skip_globals (fs_of "in.txt" skip_lines) "in.txt"))
           ltac:(simpl; lia) ltac:(discriminate) (Relation_Operators.rt1n_refl _ _ _)).
Defined.

(** X6: with [n_threads <= 0] no consumer is started, [max_queue_size]
    is [0] (an unbounded queue), and for an existing input file no
    reachable state is finished: the producer always puts at least one
    block, nothing takes it, and [q.join()] never returns. *)
Theorem run_hangs_without_consumers (g : PipelineGlobals) (k : ItemFailure) (fs : FileSystem)
    (f : string) (lines : list string) (st : RunState) :
  n_threads g <= 0 -> fs f = Some lines ->
  run_reachable g k (produced_blocks g fs f) st -> ~ run_finished st.
Proof.
  intros Hn Hf Hr [Hp Hu].
  destruct (run_no_workers_reachable g k _ st Hn Hr) as (_ & Hb & Hl).
  destruct (run_inv_reachable g k _ st Hr) as (_ & Hu' & _).
  rewrite Hu, Hb in Hu'. rewrite Hp in Hl. simpl in Hu', Hl.
  rewrite (produced_blocks_eq g fs f lines Hf), length_app in Hl. simpl in Hl. lia.
Qed.

Lemma run_hangs_without_consumers_witness :
  ~ run_finished (run_init (module_globals 0 500)
                    (produced_blocks (module_globals 0 500) (fs_of "in.txt" five_lines) "in.txt")).
Proof.
  apply (run_hangs_without_consumers (module_globals 0 500) NeverRaises
           (fs_of "in.txt" five_lines) "in.txt"
           five_lines _ ltac:(simpl; lia) eq_refl (Relation_Operators.rt1n_refl _ _ _)).
Defined.



(** X7: a consumer of the access-tier script calls [q.task_done()]
    exactly once per block it takes from the queue and returns normally,
    whatever the per-item calls raise and whatever the configuration and
    the requested tier: the [try] around each iteration catches every
    error before [task_done]. *)
Theorem access_consumer_task_done_per_block {Store : Type} `{ContainerClient Store}
    (cfg : AccessTier.Globals) (t : string) (bs : list (list string)) :
  adds_exactly is_task_done (List.length bs) (AccessTier.consumer_func cfg t bs).
Proof.
  unfold AccessTier.consumer_func.
  apply (ae_bind is_task_done 0 (List.length bs)).
  - apply ae_when0. apply (ae_emit is_task_done (EvLog _)).
  - intros _. apply ae_consumer_loop. intros b. unfold AccessTier.consumer_iteration.
    apply (ae_bind is_task_done 0 1).
    + apply ae_try0; [em_solve|].
      intros e. apply (ae_emit is_task_done (EvLog _)).
    + intros _. apply (ae_emit is_task_done EvTaskDone).
Qed.

(** X8: with the existence check off, a consumer of the delete script
    calls [q.task_done()] exactly once per block it takes from the queue
    and returns normally, whatever the deletions raise. *)
Theorem delete_consumer_task_done_per_block {Store : Type} `{ContainerClient Store}
    (cfg : DeleteBlobs.Globals) (bs : list (list string)) :
  DeleteBlobs.verify_existence cfg = false ->
  adds_exactly is_task_done (List.length bs) (DeleteBlobs.consumer_func cfg bs).
Proof.
  intros Hv. unfold DeleteBlobs.consumer_func.
  apply (ae_bind is_task_done 0 (List.length bs)).
  - apply ae_when0. apply (ae_emit is_task_done (EvLog _)).
  - intros _. apply ae_consumer_loop. intros b. unfold DeleteBlobs.consumer_iteration.
    apply (ae_bind is_task_done 0 1).
    + apply ae_when0. apply (ae_emit is_task_done (EvLog _)).
    + intros _. apply (ae_bind is_task_done 0 1).
      * apply ae_of_em.
        -- apply nr_for_each. intros x. apply nr_delete_blob, Hv.
        -- em_solve.
      * intros _. apply (ae_emit is_task_done EvTaskDone).
Qed.

Lemma delete_consumer_task_done_per_block_witness :
  exists s' l',
    DeleteBlobs.consumer_func DeleteBlobs.default_globals [["a.jpg"]; ["b.jpg"]]
      two_blobs_first_throttled [] = (s', l', inr tt)
    /\ count_ev is_task_done l' = 2%nat.
Proof.
  destruct (delete_consumer_task_done_per_block DeleteBlobs.default_globals
              [["a.jpg"]; ["b.jpg"]] eq_refl two_blobs_first_throttled [])
    as (s' & l' & [] & E & C).
  exists s', l'. split; [exact E | exact C].
Defined.

(** X10: [set_access_tier(container_client, p, t)] touches only the blob
    [p]: every remote call it makes names [p], it never deletes, and it
    issues at most one tier change, which sets [p] to [t]. *)
Theorem set_access_tier_footprint {Store : Type} `{ContainerClient Store}
    (cfg : AccessTier.Globals) (p t : string) :
  emits_at_most (fun e => names_other_blob p e || sets_other_tier t e || is_delete e) 0
    (AccessTier.set_access_tier cfg p t)
  /\ emits_at_most is_set_tier 1 (AccessTier.set_access_tier cfg p t).
Proof. split; em_solve. Qed.

(** X11: [delete_blob(container_client, p)] touches only the blob [p]:
    every remote call it makes names [p], it never changes a tier, and it
    issues at most one deletion and at most one property read. *)
Theorem delete_blob_footprint {Store : Type} `{ContainerClient Store}
    (cfg : DeleteBlobs.Globals) (p : string) :
  emits_at_most (fun e => names_other_blob p e || is_set_tier e) 0
    (DeleteBlobs.delete_blob cfg p)
  /\ emits_at_most is_delete 1 (DeleteBlobs.delete_blob cfg p)
  /\ emits_at_most is_remote_read 1 (DeleteBlobs.delete_blob cfg p).
Proof. split; [|split]; em_solve. Qed.

(** One iteration of an access-tier consumer for a tier the [assert]
    refuses. *)
Lemma access_iteration_invalid {Store : Type} `{ContainerClient Store}
    (cfg : AccessTier.Globals) (t : string) (b : list string) (s : Store) (l : list Event) :
  AccessTier.is_valid_tier t = false ->
  AccessTier.consumer_iteration cfg t b s l
  = (s, l ++ (if verbose (AccessTier.pipeline cfg)
              then [EvLog ("De-queuing " ++ string_of_nat (List.length b) ++ " paths")]
              else [])
          ++ match b with [] => [] | _ => [EvLog "Consumer error: "] end
          ++ [EvTaskDone], inr tt).
Proof.
  intros Ht. unfold AccessTier.consumer_iteration.
  destruct b as [|x b]; cbn [for_each];
    [| rewrite (set_access_tier_invalid cfg x t Ht)];
    destruct (verbose (AccessTier.pipeline cfg));
    cbv beta iota delta [bind try_except when emit ret raise];
    rewrite <- ?app_assoc, ?app_nil_r; reflexivity.
Qed.

(** X9: for a tier outside [valid_tiers], a consumer of the access-tier
    script makes no remote call and leaves the storage as it is: for each
    block it prints the de-queuing line when verbose, one
    ["Consumer error: "] line (the failed [assert] has an empty message)
    if the block is not empty, and marks the block done; it returns
    normally. *)
Theorem invalid_tier_consumer_trace {Store : Type} `{ContainerClient Store}
    (cfg : AccessTier.Globals) (t : string) (bs : list (list string))
    (s : Store) (l : list Event) :
  AccessTier.is_valid_tier t = false ->
  AccessTier.consumer_func cfg t bs s l
  = (s, l ++ (if verbose (AccessTier.pipeline cfg) then [EvLog "Consumer starting"] else [])
          ++ flat_map (fun b =>
                 (if verbose (AccessTier.pipeline cfg)
                  then [EvLog ("De-queuing " ++ string_of_nat (List.length b) ++ " paths")]
                  else [])
                 ++ match b with [] => [] | _ => [EvLog "Consumer error: "] end
                 ++ [EvTaskDone]) bs, inr tt).
Proof.
  intros Ht. unfold AccessTier.consumer_func.
  assert (Hloop : forall s0 l0,
    consumer_loop (AccessTier.consumer_iteration cfg t) bs s0 l0
    = (s0, l0 ++ flat_map (fun b =>
                 (if verbose (AccessTier.pipeline cfg)
                  then [EvLog ("De-queuing " ++ string_of_nat (List.length b) ++ " paths")]
                  else [])
                 ++ match b with [] => [] | _ => [EvLog "Consumer error: "] end
                 ++ [EvTaskDone]) bs, inr tt)).
  { induction bs as [|b bs IH]; intros s0 l0; cbn [consumer_loop flat_map].
    - rewrite app_nil_r. reflexivity.
    - unfold bind at 1. rewrite (access_iteration_invalid cfg t b s0 l0 Ht).
      rewrite IH, <- !app_assoc. reflexivity. }
  unfold bind at 1, when.
  destruct (verbose (AccessTier.pipeline cfg)); cbv beta iota delta [emit ret];
    rewrite Hloop, ?app_nil_r, <- ?app_assoc; reflexivity.
Qed.

Lemma invalid_tier_consumer_trace_witness :
  AccessTier.is_valid_tier "Frozen" = false
  /\ AccessTier.consumer_func dry_run_tier_globals "Frozen" [["a.jpg"]; []] one_hot_blob []
     = (one_hot_blob, [EvLog "Consumer error: "; EvTaskDone; EvTaskDone], inr tt).
Proof.
  split; [reflexivity|].
  rewrite (invalid_tier_consumer_trace dry_run_tier_globals "Frozen" [["a.jpg"]; []]
             one_hot_blob [] eq_refl).
  reflexivity.
Defined.

(** The [try] block of the tier change, for a tier other than
    ["Archive"]: the optional ["Setting"] line, the call, and on failure
    the error line, printed only when verbose. *)
Lemma change_tier_non_archive {Store : Type} `{ContainerClient Store}
    (cfg : AccessTier.Globals) (p t : string) (s : Store) (l : list Event) :
  String.eqb t "Archive" = false ->
  AccessTier.change_tier cfg p t s l
  = (match set_standard_blob_tier_blobs s t p with inr s' => s' | inl _ => s end,
     l ++ (if verbose (AccessTier.pipeline cfg)
           then [EvLog ("Setting " ++ p ++ " to " ++ t)] else [])
       ++ EvSetTier t p
       :: match set_standard_blob_tier_blobs s t p with
          | inr _ => []
          | inl e =>
              if verbose (AccessTier.pipeline cfg)
              then [EvLog (if str_contains "BlobNotFound" (exn_msg e)
                           then p ++ " does not exist"
                           else "Error setting " ++ p ++ " to " ++ t ++ ": " ++ exn_msg e)]
              else []
          end, inr tt).
Proof.
  intros Ha. unfold AccessTier.change_tier. rewrite Ha.
  cbv beta iota zeta delta [bind try_except ret when emit set_tier].
  destruct (verbose _); destruct (set_standard_blob_tier_blobs s t p) as [e|s'];
    cbv beta iota; try destruct (str_contains _ _); rewrite <- ?app_assoc; reflexivity.
Qed.

(** The property check of [verify_access_tier] when the blob is at a
    valid tier other than the requested one. *)
Lemma verify_tier_proceeds {Store : Type} `{ContainerClient Store}
    (cfg : AccessTier.Globals) (p t t0 : string) (s : Store) (l : list Event)
    (props : BlobProperties) :
  get_blob_properties s p = inr props -> blob_tier props = Some t0 ->
  AccessTier.is_valid_tier t0 = true ->
  String.eqb t0 t = false ->
  AccessTier.verify_tier cfg p t s l = (s, l ++ [EvGetProps p], inr false).
Proof.
  intros Hg Ht0 Hv0 Hd. unfold AccessTier.verify_tier.
  cbv beta iota zeta delta [bind try_except get_props emit ret raise].
  rewrite Hg. cbv beta iota. rewrite Ht0, Hv0. cbv beta iota delta [negb].
  rewrite Hd. reflexivity.
Qed.

(** [set_access_tier] with the existence check off, changes on and a tier
    other than ["Archive"], once the property check has let it go on. *)
Lemma set_access_tier_after_verify {Store : Type} `{ContainerClient Store}
    (cfg : AccessTier.Globals) (p t : string) (s : Store) (l pre : list Event) :
  AccessTier.is_valid_tier t = true -> String.eqb t "Archive" = false ->
  AccessTier.verify_existence cfg = false -> AccessTier.execute_changes cfg = true ->
  (if AccessTier.verify_access_tier cfg then AccessTier.verify_tier cfg p t else ret false) s l
  = (s, l ++ pre, inr false) ->
  AccessTier.set_access_tier cfg p t s l
  = (match set_standard_blob_tier_blobs s t p with inr s' => s' | inl _ => s end,
     l ++ pre
       ++ (if verbose (AccessTier.pipeline cfg)
           then [EvLog ("Setting " ++ p ++ " to " ++ t)] else [])
       ++ EvSetTier t p
       :: match set_standard_blob_tier_blobs s t p with
          | inr _ => []
          | inl e =>
              if verbose (AccessTier.pipeline cfg)
              then [EvLog (if str_contains "BlobNotFound" (exn_msg e)
                           then p ++ " does not exist"
                           else "Error setting " ++ p ++ " to " ++ t ++ ": " ++ exn_msg e)]
              else []
          end
       ++ (if 0 <? AccessTier.sleep_time_after_op_ms cfg then [EvSleep] else []), inr tt).
Proof.
  intros Ht Ha Hv Hx Hpre. unfold AccessTier.set_access_tier. rewrite Ht, Hv, Hx.
  cbv beta iota delta [negb existence_prologue].
  unfold bind at 1. unfold ret at 1. cbv beta iota.
  unfold bind at 1. rewrite Hpre. cbv beta iota.
  unfold bind at 1. rewrite (change_tier_non_archive cfg p t s (l ++ pre) Ha).
  cbv beta iota delta [when emit ret].
  destruct (0 <? AccessTier.sleep_time_after_op_ms cfg);
    rewrite <- ?app_assoc, ?app_nil_r; cbn [app]; rewrite <- ?app_assoc; reflexivity.
Qed.

(** The [if verify_existence:] prologue when the property read raises. *)
Lemma existence_prologue_error {Store : Type} `{ContainerClient Store}
    (p : string) (s : Store) (l : list Event) (e : Exn) :
  get_blob_properties s p = inl e ->
  existence_prologue true p s l
  = if is_resource_not_found e
    then (s, l ++ [EvGetProps p; EvLog ("Warning: " ++ p ++ " does not exist")], inr true)
    else (s, l ++ [EvGetProps p], inl e).
Proof.
  intros Hg. unfold existence_prologue, blob_exists.
  cbv beta iota delta [bind try_except get_props emit ret raise].
  rewrite Hg. cbv beta iota.
  destruct (is_resource_not_found e); cbv beta iota; rewrite <- ?app_assoc; reflexivity.
Qed.

(** X12: with the existence check off and changes on, a request for a
    valid tier other than ["Archive"] goes through to the remote call when
    the property check is off, or when it finds the blob at another valid
    tier. The
    trace is the property read (if the check is on), the ["Setting"] line
    when verbose, the tier change on [p], the error line of a failed change
    (printed only when verbose), and the sleep; the operation returns
    normally, and the storage is the one the change leaves. *)
Theorem set_access_tier_change_trace {Store : Type} `{ContainerClient Store}
    (cfg : AccessTier.Globals) (p t : string) (s : Store) (l : list Event) :
  AccessTier.is_valid_tier t = true -> String.eqb t "Archive" = false ->
  AccessTier.verify_existence cfg = false -> AccessTier.execute_changes cfg = true ->
  AccessTier.verify_access_tier cfg = false
  \/ (exists props t0, get_blob_properties s p = inr props /\ blob_tier props = Some t0
       /\ AccessTier.is_valid_tier t0 = true
       /\ String.eqb t0 t = false) ->
  AccessTier.set_access_tier cfg p t s l
  = (match set_standard_blob_tier_blobs s t p with inr s' => s' | inl _ => s end,
     l ++ (if AccessTier.verify_access_tier cfg then [EvGetProps p] else [])
       ++ (if verbose (AccessTier.pipeline cfg)
           then [EvLog ("Setting " ++ p ++ " to " ++ t)] else [])
       ++ EvSetTier t p
       :: match set_standard_blob_tier_blobs s t p with
          | inr _ => []
          | inl e =>
              if verbose (AccessTier.pipeline cfg)
              then [EvLog (if str_contains "BlobNotFound" (exn_msg e)
                           then p ++ " does not exist"
                           else "Error setting " ++ p ++ " to " ++ t ++ ": " ++ exn_msg e)]
              else []
          end
       ++ (if 0 <? AccessTier.sleep_time_after_op_ms cfg then [EvSleep] else []), inr tt).
Proof.
  intros Ht Ha Hv Hx Hc. apply set_access_tier_after_verify; try assumption.
  destruct (AccessTier.verify_access_tier cfg) eqn:Hva.
  - destruct Hc as [Hc | (props & t0 & Hg & Ht0 & Hv0 & Hd)]; [discriminate|].
    apply (verify_tier_proceeds cfg p t t0 s l props Hg Ht0 Hv0 Hd).
  - rewrite app_nil_r. reflexivity.
Qed.

Lemma set_access_tier_change_trace_witness :
  AccessTier.set_access_tier AccessTier.default_globals "a.jpg" "Cool" one_hot_blob []
  = (mkSimStore [("a.jpg", mkBlobProperties (Some "Cool") (Some false) None)] [],
     [EvGetProps "a.jpg"; EvSetTier "Cool" "a.jpg"; EvSleep], inr tt).
Proof.
  rewrite (set_access_tier_change_trace AccessTier.default_globals "a.jpg" "Cool"
             one_hot_blob [] eq_refl eq_refl eq_refl eq_refl).
  - reflexivity.
  - right. exists (at_tier "Hot"), "Hot".
    split; [reflexivity | split; [reflexivity | split; reflexivity]].
Defined.

(** X13: with the existence check off and deletions on,
    [delete_blob(container_client, p)] prints ["Deleting"] when verbose,
    issues the deletion of [p], prints the error of a failed deletion only
    when verbose, sleeps, and returns normally; the storage is the one the
    deletion leaves. *)
Theorem delete_blob_trace {Store : Type} `{ContainerClient Store}
    (cfg : DeleteBlobs.Globals) (p : string) (s : Store) (l : list Event) :
  DeleteBlobs.verify_existence cfg = false -> DeleteBlobs.execute_deletions cfg = true ->
  DeleteBlobs.delete_blob cfg p s l
  = (match delete_blob_call s p with inr s' => s' | inl _ => s end,
     l ++ (if verbose (DeleteBlobs.pipeline cfg) then [EvLog ("Deleting " ++ p)] else [])
       ++ EvDelete p
       :: match delete_blob_call s p with
          | inr _ => []
          | inl e =>
              if verbose (DeleteBlobs.pipeline cfg)
              then [EvLog (if str_contains "BlobNotFound" (exn_msg e)
                           then p ++ " does not exist"
                           else "Error deleting " ++ p ++ ": " ++ exn_msg e)]
              else []
          end
       ++ (if 0 <? DeleteBlobs.sleep_time_after_deletion_ms cfg then [EvSleep] else []),
     inr tt).
Proof.
  intros Hv Hx. unfold DeleteBlobs.delete_blob. rewrite Hv, Hx.
  cbv beta iota zeta delta [bind try_except ret when emit delete_call existence_prologue negb].
  destruct (verbose _); destruct (delete_blob_call s p) as [e|s'];
    cbv beta iota; try destruct (str_contains _ _);
    destruct (0 <? DeleteBlobs.sleep_time_after_deletion_ms cfg);
    rewrite <- ?app_assoc; reflexivity.
Qed.

Lemma delete_blob_trace_witness :
  DeleteBlobs.delete_blob DeleteBlobs.default_globals "a.jpg" two_blobs_first_throttled []
  = (two_blobs_first_throttled, [EvDelete "a.jpg"; EvSleep], inr tt).
Proof.
  rewrite (delete_blob_trace DeleteBlobs.default_globals "a.jpg" two_blobs_first_throttled []
             eq_refl eq_refl).
  reflexivity.
Defined.

(** X14: with the existence check off, the property check on and changes
    on, a failed property check (the read raises, the blob has no tier, its
    tier is not a valid one, or it is already at the requested tier while
    [force_tier_on_inferred_blobs] is on, so that the lookup of
    ['tier_inferred'] raises [KeyError]) prints
    ["Error verifying access tier for <p>: <error>"] and the tier change
    of a valid tier other than ["Archive"] is still issued. *)
Theorem tier_check_failure_still_changes {Store : Type} `{ContainerClient Store}
    (cfg : AccessTier.Globals) (p t : string) (s : Store) (l : list Event) (e : Exn) :
  AccessTier.is_valid_tier t = true -> String.eqb t "Archive" = false ->
  AccessTier.verify_existence cfg = false -> AccessTier.verify_access_tier cfg = true ->
  AccessTier.execute_changes cfg = true ->
  get_blob_properties s p = inl e
  \/ (exists props, get_blob_properties s p = inr props /\ blob_tier props = None
       /\ e = mkExn AssertionError "Error retrieving blob tier; is this a GPv1 storage account?")
  \/ (exists props x, get_blob_properties s p = inr props /\ blob_tier props = Some x
       /\ AccessTier.is_valid_tier x = false
       /\ e = mkExn AssertionError ("Unrecognized tier " ++ x ++ " for " ++ p))
  \/ (exists props, get_blob_properties s p = inr props /\ blob_tier props = Some t
       /\ AccessTier.is_valid_tier t = true
       /\ AccessTier.force_tier_on_inferred_blobs cfg = true
       /\ e = mkExn KeyError "'tier_inferred'") ->
  AccessTier.set_access_tier cfg p t s l
  = (match set_standard_blob_tier_blobs s t p with inr s' => s' | inl _ => s end,
     l ++ [EvGetProps p;
           EvLog ("Error verifying access tier for " ++ p ++ ": " ++ exn_msg e)]
       ++ (if verbose (AccessTier.pipeline cfg)
           then [EvLog ("Setting " ++ p ++ " to " ++ t)] else [])
       ++ EvSetTier t p
       :: match set_standard_blob_tier_blobs s t p with
          | inr _ => []
          | inl e' =>
              if verbose (AccessTier.pipeline cfg)
              then [EvLog (if str_contains "BlobNotFound" (exn_msg e')
                           then p ++ " does not exist"
                           else "Error setting " ++ p ++ " to " ++ t ++ ": " ++ exn_msg e')]
              else []
          end
       ++ (if 0 <? AccessTier.sleep_time_after_op_ms cfg then [EvSleep] else []), inr tt).
Proof.
  intros Ht Ha Hv Hva Hx Hf. apply set_access_tier_after_verify; try assumption.
  rewrite Hva. exact (verify_tier_failure cfg p t s l e Hf).
Qed.

Lemma tier_check_failure_still_changes_witness :
  AccessTier.set_access_tier AccessTier.default_globals "a.jpg" "Cool" throttled_blob []
  = (throttled_blob,
     [EvGetProps "a.jpg";
      EvLog ("Error verifying access tier for a.jpg: " ++ exn_msg busy_error);
      EvSetTier "Cool" "a.jpg"; EvSleep], inr tt).
Proof.
  rewrite (tier_check_failure_still_changes AccessTier.default_globals "a.jpg" "Cool"
             throttled_blob [] busy_error eq_refl eq_refl eq_refl eq_refl eq_refl).
  - reflexivity.
  - left. reflexivity.
Defined.

(** X15: with the existence check on, when the first property read raises,
    both per-item operations stop there: a [ResourceNotFoundError] gives
    the warning ["Warning: <p> does not exist"] and a normal return with no
    further call; any other error propagates out of the operation. *)
Theorem existence_check_error {Store : Type} `{ContainerClient Store}
    (cfg : AccessTier.Globals) (dcfg : DeleteBlobs.Globals) (p t : string)
    (s : Store) (l : list Event) (e : Exn) :
  AccessTier.is_valid_tier t = true -> AccessTier.verify_existence cfg = true ->
  DeleteBlobs.verify_existence dcfg = true -> get_blob_properties s p = inl e ->
  AccessTier.set_access_tier cfg p t s l
  = (if is_resource_not_found e
     then (s, l ++ [EvGetProps p; EvLog ("Warning: " ++ p ++ " does not exist")], inr tt)
     else (s, l ++ [EvGetProps p], inl e))
  /\ DeleteBlobs.delete_blob dcfg p s l
  = (if is_resource_not_found e
     then (s, l ++ [EvGetProps p; EvLog ("Warning: " ++ p ++ " does not exist")], inr tt)
     else (s, l ++ [EvGetProps p], inl e)).
Proof.
  intros Ht Hv Hdv Hg. split.
  - unfold AccessTier.set_access_tier. rewrite Ht, Hv. cbv beta iota delta [negb].
    unfold bind at 1. rewrite (existence_prologue_error p s l e Hg).
    destruct (is_resource_not_found e); reflexivity.
  - unfold DeleteBlobs.delete_blob. rewrite Hdv.
    unfold bind at 1. rewrite (existence_prologue_error p s l e Hg).
    destruct (is_resource_not_found e); reflexivity.
Qed.

Lemma existence_check_error_witness :
  AccessTier.set_access_tier existence_tier_globals "a.jpg" "Cool" throttled_blob []
  = (throttled_blob, [EvGetProps "a.jpg"], inl busy_error)
  /\ DeleteBlobs.delete_blob existence_delete_globals "b.jpg" one_hot_blob []
  = (one_hot_blob, [EvGetProps "b.jpg"; EvLog "Warning: b.jpg does not exist"], inr tt).
Proof.
  split.
  - refine (proj1 (existence_check_error existence_tier_globals existence_delete_globals
             "a.jpg" "Cool" throttled_blob [] busy_error _ _ _ _)); reflexivity.
  - refine (proj2 (existence_check_error existence_tier_globals existence_delete_globals
             "b.jpg" "Cool" one_hot_blob [] not_found_error _ _ _ _)); reflexivity.
Defined.

(** X16: a request for ["Archive"] (existence and property checks off,
    changes on) first reads the blob's properties, then issues the change;
    when the blob was already at ["Archive"] before the change, the code
    looks at its archive status: a status without ["rehydrate-pending"]
    prints ["Error: blob <p> not re-hydrating"], and a missing status
    raises a [TypeError] that the [except] swallows, printing it only when
    verbose. The operation returns normally. *)
Theorem archive_request_trace {Store : Type} `{ContainerClient Store}
    (cfg : AccessTier.Globals) (p : string) (s s' : Store) (l : list Event)
    (props : BlobProperties) :
  AccessTier.verify_existence cfg = false -> AccessTier.verify_access_tier cfg = false ->
  AccessTier.execute_changes cfg = true ->
  get_blob_properties s p = inr props -> set_standard_blob_tier_blobs s "Archive" p = inr s' ->
  AccessTier.set_access_tier cfg p "Archive" s l
  = (s', l ++ [EvGetProps p]
          ++ (if verbose (AccessTier.pipeline cfg)
              then [EvLog ("Setting " ++ p ++ " to Archive")] else [])
          ++ EvSetTier "Archive" p
          :: (if AccessTier.is_archive (blob_tier props) then
                match archive_status props with
                | None =>
                    if verbose (AccessTier.pipeline cfg)
                    then [EvLog ("Error setting " ++ p ++
                                 " to Archive: argument of type 'NoneType' is not iterable")]
                    else []
                | Some st =>
                    if str_contains "rehydrate-pending" st then []
                    else [EvLog ("Error: blob " ++ p ++ " not re-hydrating")]
                end
              else [])
          ++ (if 0 <? AccessTier.sleep_time_after_op_ms cfg then [EvSleep] else []), inr tt).
Proof.
  intros Hv Hva Hx Hg Hs.
  unfold AccessTier.set_access_tier, AccessTier.change_tier.
  rewrite Hv, Hva, Hx.
  replace (AccessTier.is_valid_tier "Archive") with true by reflexivity.
  rewrite String.eqb_refl.
  cbv beta iota zeta delta [bind try_except get_props ret when emit set_tier
                            existence_prologue negb raise].
  rewrite Hg. cbv beta iota.
  destruct (verbose (AccessTier.pipeline cfg)); cbv beta iota; rewrite Hs; cbv beta iota;
    (destruct (AccessTier.is_archive (blob_tier props));
     [destruct (archive_status props) as [st|];
      [destruct (str_contains "rehydrate-pending" st)|]|]);
    cbv beta iota; cbn [exn_msg];
    replace (str_contains "BlobNotFound" "argument of type 'NoneType' is not iterable")
      with false by reflexivity;
    cbv beta iota; destruct (0 <? AccessTier.sleep_time_after_op_ms cfg);
    rewrite <- ?app_assoc; reflexivity.
Qed.

Lemma archive_request_trace_witness :
  AccessTier.set_access_tier archive_globals "a.jpg" "Archive" archived_blob []
  = (archived_blob, [EvGetProps "a.jpg"; EvSetTier "Archive" "a.jpg"; EvSleep], inr tt).
Proof.
  rewrite (archive_request_trace archive_globals "a.jpg" archived_blob archived_blob []
             (at_tier "Archive")); reflexivity.
Defined.

Lemma workers_started_start_and_join (g : PipelineGlobals) (fs : FileSystem) (f : string) :
  workers_started (start_and_join g fs f) = S (Z.to_nat (n_threads g)).
Proof.
  unfold workers_started, start_and_join.
  assert (Hm : forall xs, filter is_worker_start (map MStartConsumer xs) = map MStartConsumer xs).
  { induction xs as [|x xs IH]; simpl; [reflexivity | rewrite IH; reflexivity]. }
  rewrite !filter_app, Hm, !length_app, length_map, length_seq.
  destruct (snd (producer_func g fs f)); simpl; lia.
Qed.

(** X17: the drivers start the producer and [n_threads] consumers (none
    for a negative count, as [range] gives). [parallel_set_access_tier]
    does so only for an existing input file and otherwise fails its
    assertion ["File <f> does not exist"] with no worker started;
    [parallel_delete_blobs] does so for every input file. Both then reach
    [q.join()] without raising; whether that call returns depends on the
    run of the queue (X5, X6, X18). *)
Theorem drivers_start_workers (cfg : AccessTier.Globals) (dcfg : DeleteBlobs.Globals)
    (fs : FileSystem) (f : string) :
  workers_started (fst (AccessTier.parallel_set_access_tier cfg fs f))
  = (if isfile fs f then S (Z.to_nat (n_threads (AccessTier.pipeline cfg))) else 0%nat)
  /\ snd (AccessTier.parallel_set_access_tier cfg fs f)
     = (if isfile fs f then inr tt
        else inl (mkExn AssertionError ("File " ++ f ++ " does not exist")))
  /\ workers_started (fst (DeleteBlobs.parallel_delete_blobs dcfg fs f))
     = S (Z.to_nat (n_threads (DeleteBlobs.pipeline dcfg)))
  /\ snd (DeleteBlobs.parallel_delete_blobs dcfg fs f) = inr tt.
Proof.
  unfold AccessTier.parallel_set_access_tier, AccessTier.parallel_set_access_tier_workers,
    AccessTier.file_assert, DeleteBlobs.parallel_delete_blobs.
  destruct (isfile fs f); cbn [fst snd];
    rewrite ?workers_started_start_and_join; repeat split.
Qed.
